(** * Endpoint-slice aggregation: cache, slice processor and by-port query

    A shallow embedding of
    [pilot/pkg/serviceregistry/kube/controller/endpointslice.go].

    Go maps are finite maps ([gmap]); a read of a missing key yields the zero
    value, [delete] on a missing key or a nil map does nothing.  Slices of
    pointers are lists of values.  The reader/writer lock is left out: every
    operation is one atomic function on the cache.  Go iterates over a map
    in an unspecified order, so [Get] is given both as a function of an
    explicit iteration order and as the relation of all its possible
    results. *)

From stdpp Require Import gmap strings list fin_maps.
From Stdlib Require Import ZArith.

#[local] Open Scope Z_scope.

(** ** Data model *)

(** The Kubernetes discovery and core types the file reads. *)
Module v1.

(** [type AddressType string] with its three declared constants. *)
Definition AddressType : Type := string.
Definition AddressTypeIPv4 : AddressType := "IPv4".
Definition AddressTypeIPv6 : AddressType := "IPv6".
Definition AddressTypeFQDN : AddressType := "FQDN".

(** Pointer-to-bool conditions: [None] is the nil pointer. *)
Record EndpointConditions := {
  Ready : option bool;
  Serving : option bool;
  Terminating : option bool }.

Record ObjectReference := {
  ref_Kind : string;
  ref_Namespace : string;
  ref_Name : string }.

Record Endpoint := {
  Addresses : list string;
  Conditions : EndpointConditions;
  TargetRef : option ObjectReference }.

(** [Name *string], [Port *int32]. *)
Record EndpointPort := {
  port_Name : option string;
  port_Port : option Z }.

Record EndpointSlice := {
  slice_Name : string;
  slice_Namespace : string;
  slice_AddressType : AddressType;
  Endpoints : list Endpoint;
  Ports : list EndpointPort }.

(** A resolved pod ([*v1.Pod]) is only handed on to the endpoint builder;
    it is an opaque token here. *)
Definition Pod : Type := string.

End v1.

Module metav1.

Record ObjectMeta := {
  Name : string;
  Namespace : string }.

End metav1.

Module model.

Inductive HealthStatus := Healthy | UnHealthy | Draining.

(** The discoverability policy is an opaque token passed to the builder. *)
Definition EndpointDiscoverabilityPolicy : Type := string.

(** The canonical endpoint: the fields this file reads or writes
    ([Address], [ServicePortName] and [HealthStatus], here [Health] beside
    the type of that name) and what the builder is given besides. *)
Record IstioEndpoint := {
  Address : string;
  ServicePortName : string;
  EndpointPort : Z;
  Health : HealthStatus;
  Workload : option v1.Pod;
  DiscoverabilityPolicy : EndpointDiscoverabilityPolicy }.

(** [istioEndpoint.HealthStatus = st] *)
Definition setHealthStatus (st : HealthStatus) (ep : IstioEndpoint) : IstioEndpoint :=
  {| Address := Address ep;
     ServicePortName := ServicePortName ep;
     EndpointPort := EndpointPort ep;
     Health := st;
     Workload := Workload ep;
     DiscoverabilityPolicy := DiscoverabilityPolicy ep |}.

Record Port := {
  port_Name : string;
  port_Port : Z }.

(** [Labels map[string]string]: [None] is the nil map. *)
Record ServiceAttributes := {
  attr_Name : string;
  attr_Namespace : string;
  Labels : option (gmap string string) }.

Record Service := {
  Attributes : ServiceAttributes;
  Hostname : string;
  svc_Ports : list Port }.

Record ServiceInstance := {
  inst_Endpoint : IstioEndpoint;
  inst_ServicePort : Port;
  inst_Service : Service }.

(** Modelled from the spec: [PortList.GetByPort] is declared outside this
    file.  The by-port query is said to "resolve the declared service port
    by number": the first declared port with that number, if any. *)
Definition GetByPort (ports : list Port) (num : Z) : option Port :=
  List.find (fun p => bool_decide (port_Port p = num)) ports.

End model.

Module features.

(** The two feature toggles the processor reads. *)
Record Flags := {
  PersistentSessionLabel : string;
  SendUnhealthyEndpoints : bool }.

End features.

(** A failed call of a collaborator ([err != nil]). *)
Inductive result (A : Type) : Type :=
| Ok (a : A)
| Err (msg : string).
Arguments Ok {A} a.
Arguments Err {A} msg.

(** A label selector as this file builds it: labels that must be equal and
    label keys that must not exist. *)
Record Selector := {
  matchLabels : list (string * string);
  doesNotExist : list string }.

(** [v1beta1.LabelServiceName] and [mcs.LabelServiceName]. *)
Definition LabelServiceName : string := "kubernetes.io/service-name".
Definition mcsLabelServiceName : string := "multicluster.kubernetes.io/service-name".

Definition endpointSliceSelectorForService (name : string) : Selector :=
  {| matchLabels := [(LabelServiceName, name)];
     doesNotExist := [mcsLabelServiceName] |}.

(** ** The slice aggregation cache *)

(** [endpointKey] identifies an endpoint by IP and port name. *)
Record endpointKey := {
  ip : string;
  port : string }.

#[global] Instance endpointKey_eq_dec : EqDecision endpointKey.
Proof. solve_decision. Defined.

#[global] Instance endpointKey_countable : Countable endpointKey.
Proof.
  refine (inj_countable' (fun k => (ip k, port k))
            (fun p => {| ip := p.1; port := p.2 |}) _).
  by intros [].
Defined.

Definition keyOf (ep : model.IstioEndpoint) : endpointKey :=
  {| ip := model.Address ep; port := model.ServicePortName ep |}.

(** [map[host.Name]map[string][]*model.IstioEndpoint] (the mutex is left out). *)
Record endpointSliceCache := {
  endpointsByServiceAndSlice : gmap string (gmap string (list model.IstioEndpoint)) }.

Definition newEndpointSliceCache : endpointSliceCache :=
  {| endpointsByServiceAndSlice := ∅ |}.

(** [e.endpointsByServiceAndSlice[hostname]]: a missing service reads as the
    nil map, which behaves as the empty one for reads, [len] and [range]. *)
Definition slicesOf (hostname : string) (e : endpointSliceCache)
  : gmap string (list model.IstioEndpoint) :=
  default ∅ (endpointsByServiceAndSlice e !! hostname).

Definition Update (hostname slice : string) (endpoints : list model.IstioEndpoint)
    (e : endpointSliceCache) : endpointSliceCache :=
  let m := endpointsByServiceAndSlice e in
  (* if len(endpoints) == 0 { delete(m[hostname], slice) }: the inner map is
     changed in place when the service is present, nothing happens otherwise *)
  let m :=
    if decide (length endpoints = 0%nat) then alter (delete slice) hostname m else m in
  (* if _, f := m[hostname]; !f { m[hostname] = make(...) } *)
  let m :=
    match m !! hostname with
    | Some _ => m
    | None => <[hostname := ∅]> m
    end in
  (* m[hostname][slice] = endpoints *)
  let m := alter (insert slice endpoints) hostname m in
  {| endpointsByServiceAndSlice := m |}.

Definition Delete (hostname slice : string) (e : endpointSliceCache) : endpointSliceCache :=
  let m := endpointsByServiceAndSlice e in
  (* delete(m[hostname], slice) *)
  let m := alter (delete slice) hostname m in
  (* if len(m[hostname]) == 0 { delete(m, hostname) } *)
  let m :=
    if decide (size (default ∅ (m !! hostname)) = 0%nat) then delete hostname m else m in
  {| endpointsByServiceAndSlice := m |}.

(** The state of [Get]'s two loops: the keys [found] and the [endpoints]
    collected so far. *)
Definition getState : Type := gset endpointKey * list model.IstioEndpoint.

(** One turn of the inner loop. *)
Definition getStep (st : getState) (ep : model.IstioEndpoint) : getState :=
  let key := keyOf ep in
  if decide (key ∈ st.1) then st          (* a duplicate: continue *)
  else ({[key]} ∪ st.1, st.2 ++ [ep]).

(** [Get] when the range over the service's slices visits them in [order]. *)
Definition getIn (order : list (string * list model.IstioEndpoint))
  : list model.IstioEndpoint :=
  (foldl (fun st kv => foldl getStep st kv.2) (∅, []) order).2.

(** [Get] for one iteration order, the one [map_to_list] gives. *)
Definition Get (hostname : string) (e : endpointSliceCache) : list model.IstioEndpoint :=
  getIn (map_to_list (slicesOf hostname e)).

(** What [Get] may return: the result for any order of the slices. *)
Definition GetAny (hostname : string) (e : endpointSliceCache)
    (out : list model.IstioEndpoint) : Prop :=
  ∃ order, order ≡ₚ map_to_list (slicesOf hostname e) ∧ out = getIn order.

Definition Has (hostname : string) (e : endpointSliceCache) : bool :=
  bool_decide (is_Some (endpointsByServiceAndSlice e !! hostname)).

(** Cache states built from the empty cache by [Update] and [Delete]. *)
Inductive reachable : endpointSliceCache → Prop :=
| reach_new : reachable newEndpointSliceCache
| reach_update hostname slice endpoints e :
    reachable e → reachable (Update hostname slice endpoints e)
| reach_delete hostname slice e :
    reachable e → reachable (Delete hostname slice e).


(** ** The slice processor *)

(** What the processor asks of the enclosing controller ([esc.c]).  These
    are declared outside this file and are taken as they come:
    [GetService], the export policy, the identity resolver [getPod] (the pod,
    or nil, and whether a pod is expected) and the endpoint builder
    ([NewEndpointBuilder(c, pod).buildIstioEndpoint]). *)
Record Controller := {
  GetService : string → option model.Service;
  EndpointDiscoverabilityPolicy :
    option model.Service → model.EndpointDiscoverabilityPolicy;
  getPod : string → metav1.ObjectMeta → option v1.ObjectReference → string
           → option v1.Pod * bool;
  buildIstioEndpoint : option v1.Pod → string → Z → string
                       → model.EndpointDiscoverabilityPolicy → model.IstioEndpoint }.

Record endpointSliceController := {
  c : Controller;
  (* the informer's lister, by namespace and selector *)
  listSlices : string → Selector → result (list v1.EndpointSlice);
  endpointCache : endpointSliceCache }.

Definition withCache (esc : endpointSliceController) (cache : endpointSliceCache)
  : endpointSliceController :=
  {| c := c esc; listSlices := listSlices esc; endpointCache := cache |}.

(** [pod == nil && expectedPod] *)
Definition podMissing (r : option v1.Pod * bool) : bool :=
  match r.1 with
  | None => r.2
  | Some _ => false
  end.

(** The [draining] flag of one endpoint entry: each conjunct of the source,
    in its order; a dereference sits under the nil test that guards it. *)
Definition isDraining (flags : features.Flags) (svc : option model.Service)
    (e : v1.Endpoint) : bool :=
  bool_decide (features.PersistentSessionLabel flags ≠ "") &&
  match svc with
  | None => false
  | Some svc =>
      match model.Labels (model.Attributes svc) with
      | None => false
      | Some labels =>
          bool_decide (default "" (labels !! features.PersistentSessionLabel flags) ≠ "") &&
          match v1.Ready (v1.Conditions e) with
          | None => false
          | Some isReady =>
              match v1.Serving (v1.Conditions e) with
              | None => false
              | Some serving => serving && negb isReady
              end
          end
      end
  end.

(** The [continue] at the head of the entry loop. *)
Definition isIgnored (flags : features.Flags) (draining : bool) (e : v1.Endpoint) : bool :=
  negb (features.SendUnhealthyEndpoints flags) &&
  (negb draining &&
   match v1.Ready (v1.Conditions e) with
   | None => false
   | Some isReady => negb isReady
   end).

(** [ready := e.Conditions.Ready == nil || *e.Conditions.Ready] *)
Definition isReady (e : v1.Endpoint) : bool :=
  match v1.Ready (v1.Conditions e) with
  | None => true
  | Some r => r
  end.

(** The status written on an endpoint. *)
Definition healthOf (ready draining : bool) : model.HealthStatus :=
  if ready then model.Healthy
  else if draining then model.Draining
  else model.UnHealthy.

(** The loop over [slice.Ports] for one address. *)
Definition portLoop (ctl : Controller) (pod : option v1.Pod) (a : string)
    (policy : model.EndpointDiscoverabilityPolicy) (ready draining : bool)
    (ports : list v1.EndpointPort) (endpoints : list model.IstioEndpoint)
  : list model.IstioEndpoint :=
  foldl (fun endpoints port =>
           let portNum := default 0 (v1.port_Port port) in
           let portName := default "" (v1.port_Name port) in
           let istioEndpoint := buildIstioEndpoint ctl pod a portNum portName policy in
           let istioEndpoint :=
             model.setHealthStatus (healthOf ready draining) istioEndpoint in
           endpoints ++ [istioEndpoint])
        endpoints ports.

(** The loop over [e.Addresses] for one entry. *)
Definition addressLoop (ctl : Controller) (hostName : string) (slice : v1.EndpointSlice)
    (policy : model.EndpointDiscoverabilityPolicy) (ready draining : bool)
    (e : v1.Endpoint) (endpoints : list model.IstioEndpoint)
  : list model.IstioEndpoint :=
  foldl (fun endpoints a =>
           let r := getPod ctl a
                      {| metav1.Name := v1.slice_Name slice;
                         metav1.Namespace := v1.slice_Namespace slice |}
                      (v1.TargetRef e) hostName in
           if podMissing r then endpoints
           else portLoop ctl r.1 a policy ready draining (v1.Ports slice) endpoints)
        endpoints (v1.Addresses e).

(** The loop over [slice.Endpoints]: the value of [endpoints] when
    [Update] is called. *)
Definition sliceEndpoints (flags : features.Flags) (ctl : Controller)
    (hostName : string) (slice : v1.EndpointSlice) : list model.IstioEndpoint :=
  let svc := GetService ctl hostName in
  let discoverabilityPolicy := EndpointDiscoverabilityPolicy ctl svc in
  foldl (fun endpoints e =>
           let draining := isDraining flags svc e in
           if isIgnored flags draining e then endpoints
           else addressLoop ctl hostName slice discoverabilityPolicy
                  (isReady e) draining e endpoints)
        [] (v1.Endpoints slice).

Definition updateEndpointCacheForSlice (flags : features.Flags)
    (esc : endpointSliceController) (hostName : string) (slice : v1.EndpointSlice)
  : endpointSliceController :=
  if decide (v1.slice_AddressType slice = v1.AddressTypeFQDN) then esc
  else
    withCache esc
      (Update hostName (v1.slice_Name slice)
         (sliceEndpoints flags (c esc) hostName slice) (endpointCache esc)).

(** [buildIstioEndpoints]: process the slice, then read the merged view
    (for the iteration order [Get] fixes). *)
Definition buildIstioEndpoints (flags : features.Flags) (esc : endpointSliceController)
    (hostName : string) (slice : v1.EndpointSlice)
  : endpointSliceController * list model.IstioEndpoint :=
  let esc := updateEndpointCacheForSlice flags esc hostName slice in
  (esc, Get hostName (endpointCache esc)).

(** ** The by-port query *)

(** [port.Name == nil || svcPort.Name == *port.Name] *)
Definition portMatches (svcPort : model.Port) (port : v1.EndpointPort) : bool :=
  match v1.port_Name port with
  | None => true
  | Some name => bool_decide (model.port_Name svcPort = name)
  end.

Definition mkInstance (ctl : Controller) (svc : model.Service) (svcPort : model.Port)
    (policy : model.EndpointDiscoverabilityPolicy) (pod : option v1.Pod) (a : string)
    (port : v1.EndpointPort) : model.ServiceInstance :=
  {| model.inst_Endpoint :=
       buildIstioEndpoint ctl pod a (default 0 (v1.port_Port port))
         (model.port_Name svcPort) policy;
     model.inst_ServicePort := svcPort;
     model.inst_Service := svc |}.

(** The body of the loop over the listed slices. *)
Definition instancesOfSlice (esc : endpointSliceController) (ctl : Controller)
    (svc : model.Service) (svcPort : model.Port)
    (policy : model.EndpointDiscoverabilityPolicy)
    (out : list model.ServiceInstance) (slice : v1.EndpointSlice)
  : list model.ServiceInstance :=
  if decide (v1.slice_AddressType slice = v1.AddressTypeFQDN) then out
  else
    foldl (fun out e =>
      foldl (fun out a =>
        let r := getPod ctl a
                   {| metav1.Name := v1.slice_Name slice;
                      metav1.Namespace := v1.slice_Namespace slice |}
                   (v1.TargetRef e) (model.Hostname svc) in
        if podMissing r then out
        else
          foldl (fun out port =>
                   if portMatches svcPort port
                   then out ++ [mkInstance (c esc) svc svcPort policy r.1 a port]
                   else out)
                out (v1.Ports slice))
        out (v1.Addresses e))
      out (v1.Endpoints slice).

Definition InstancesByPort (esc : endpointSliceController) (ctl : Controller)
    (svc : model.Service) (reqSvcPort : Z) : list model.ServiceInstance :=
  match listSlices esc (model.attr_Namespace (model.Attributes svc))
          (endpointSliceSelectorForService (model.attr_Name (model.Attributes svc))) with
  | Err _ => []
  | Ok slices =>
      if decide (length slices = 0%nat) then []
      else
        match model.GetByPort (model.svc_Ports svc) reqSvcPort with
        | None => []
        | Some svcPort =>
            let discoverabilityPolicy := EndpointDiscoverabilityPolicy ctl (Some svc) in
            foldl (instancesOfSlice esc ctl svc svcPort discoverabilityPolicy) [] slices
        end
  end.


(** ** Reference definitions

    What the theorems below compare the loops of the source with. *)

(** The endpoints of [l] whose key is neither in [found] nor carried by an
    earlier endpoint of [l], in the order of [l]. *)
Fixpoint firstByKey (found : gset endpointKey) (l : list model.IstioEndpoint)
  : list model.IstioEndpoint :=
  match l with
  | [] => []
  | ep :: l =>
      if decide (keyOf ep ∈ found) then firstByKey found l
      else ep :: firstByKey ({[keyOf ep]} ∪ found) l
  end.

(** The health classification as the decision table words it.  [ready]: the
    readiness condition is true or absent. *)
Definition tableReady (e : v1.Endpoint) : bool :=
  bool_decide (v1.Ready (v1.Conditions e) = Some true ∨ v1.Ready (v1.Conditions e) = None).

(** The service carries the persistent-session label with a non-empty value. *)
Definition carriesLabel (label : string) (svc : option model.Service) : bool :=
  match svc with
  | Some s =>
      match model.Labels (model.Attributes s) with
      | Some labels =>
          match labels !! label with
          | Some value => bool_decide (value ≠ "")
          | None => false
          end
      | None => false
      end
  | None => false
  end.

(** [draining]: the feature is enabled, the service carries the label, the
    serving condition is true and the readiness condition is explicitly false. *)
Definition tableDraining (flags : features.Flags) (svc : option model.Service)
    (e : v1.Endpoint) : bool :=
  bool_decide (features.PersistentSessionLabel flags ≠ "") &&
  carriesLabel (features.PersistentSessionLabel flags) svc &&
  bool_decide (v1.Serving (v1.Conditions e) = Some true) &&
  bool_decide (v1.Ready (v1.Conditions e) = Some false).

(** The four rows of the table: the status of an included entry, or [None]
    for an excluded one. *)
Definition decisionTable (ready draining sendUnhealthy : bool) : option model.HealthStatus :=
  match ready, draining, sendUnhealthy with
  | true, _, _ => Some model.Healthy
  | false, true, _ => Some model.Draining
  | false, false, true => Some model.UnHealthy
  | false, false, false => None
  end.

(** The identity of address [a] of entry [e] as the processor resolves it. *)
Definition resolve (ctl : Controller) (hostName : string) (slice : v1.EndpointSlice)
    (e : v1.Endpoint) (a : string) : option v1.Pod * bool :=
  getPod ctl a
    {| metav1.Name := v1.slice_Name slice; metav1.Namespace := v1.slice_Namespace slice |}
    (v1.TargetRef e) hostName.

(** The canonical endpoint of address [a] and partition port [port] with
    status [st]: a missing port number reads as 0, a missing name as the
    empty string. *)
Definition canonical (ctl : Controller) (policy : model.EndpointDiscoverabilityPolicy)
    (st : model.HealthStatus) (pod : option v1.Pod) (a : string) (port : v1.EndpointPort)
  : model.IstioEndpoint :=
  model.setHealthStatus st
    (buildIstioEndpoint ctl pod a (default 0 (v1.port_Port port))
       (default "" (v1.port_Name port)) policy).

(** The endpoints of an included entry: every address whose identity is not
    missing, with every declared port of the partition. *)
Definition entryEndpoints (ctl : Controller) (hostName : string) (slice : v1.EndpointSlice)
    (st : model.HealthStatus) (e : v1.Endpoint) : list model.IstioEndpoint :=
  let policy := EndpointDiscoverabilityPolicy ctl (GetService ctl hostName) in
  a ← v1.Addresses e;
  if podMissing (resolve ctl hostName slice e a) then []
  else canonical ctl policy st (resolve ctl hostName slice e a).1 a <$> v1.Ports slice.

(** The contribution of one entry according to the table. *)
Definition tableEndpoints (flags : features.Flags) (ctl : Controller) (hostName : string)
    (slice : v1.EndpointSlice) (e : v1.Endpoint) : list model.IstioEndpoint :=
  match decisionTable (tableReady e) (tableDraining flags (GetService ctl hostName) e)
          (features.SendUnhealthyEndpoints flags) with
  | Some st => entryEndpoints ctl hostName slice st e
  | None => []
  end.

(** A port declaration that lacks its name or its number. *)
Definition malformed (port : v1.EndpointPort) : Prop :=
  v1.port_Name port = None ∨ v1.port_Port port = None.

(** Every (partition, entry, address, partition port) combination of the
    listed partitions. *)
Definition combinations (slices : list v1.EndpointSlice)
  : list (v1.EndpointSlice * v1.Endpoint * string * v1.EndpointPort) :=
  slice ← slices; e ← v1.Endpoints slice; a ← v1.Addresses e;
  port ← v1.Ports slice; [(slice, e, a, port)].

(** The address's identity resolves when it is expected to, and the
    partition port is unnamed or named as the service port. *)
Definition qualifies (ctl : Controller) (svc : model.Service) (svcPort : model.Port)
    (x : v1.EndpointSlice * v1.Endpoint * string * v1.EndpointPort) : bool :=
  let '(slice, e, a, port) := x in
  negb (podMissing (resolve ctl (model.Hostname svc) slice e a)) &&
  portMatches svcPort port.

(** The same, for partitions whose address type is not FQDN. *)
Definition qualifiesIP (ctl : Controller) (svc : model.Service) (svcPort : model.Port)
    (x : v1.EndpointSlice * v1.Endpoint * string * v1.EndpointPort) : bool :=
  bool_decide (v1.slice_AddressType x.1.1.1 ≠ v1.AddressTypeFQDN) && qualifies ctl svc svcPort x.

(** The instance of one combination. *)
Definition instanceOf (esc : endpointSliceController) (ctl : Controller)
    (svc : model.Service) (svcPort : model.Port)
    (x : v1.EndpointSlice * v1.Endpoint * string * v1.EndpointPort) : model.ServiceInstance :=
  let '(slice, e, a, port) := x in
  mkInstance (c esc) svc svcPort (EndpointDiscoverabilityPolicy ctl (Some svc))
    (resolve ctl (model.Hostname svc) slice e a).1 a port.


(** ** Example inputs

    A service with one declared port and the persistent-session label, a
    controller that resolves every address but one, and a few partitions. *)

Definition exampleHost : string := "svc.default.svc.cluster.local".

Definition httpPort : model.Port :=
  {| model.port_Name := "http"; model.port_Port := 80 |}.

Definition exampleService : model.Service :=
  {| model.Attributes :=
       {| model.attr_Name := "svc";
          model.attr_Namespace := "default";
          model.Labels := Some {[ "session" := "cookie" ]} |};
     model.Hostname := exampleHost;
     model.svc_Ports := [httpPort] |}.

Definition exampleFlags : features.Flags :=
  {| features.PersistentSessionLabel := "session";
     features.SendUnhealthyEndpoints := false |}.

(** Address 10.0.0.9 is expected to have a pod and has none; every other
    address resolves to the pod named after it. *)
Definition exampleController : Controller :=
  {| GetService := fun hostName =>
       if decide (hostName = exampleHost) then Some exampleService else None;
     EndpointDiscoverabilityPolicy := fun _ => "always";
     getPod := fun a _ _ _ =>
       if decide (a = "10.0.0.9") then (None, true) else (Some a, true);
     buildIstioEndpoint := fun pod a portNum portName policy =>
       {| model.Address := a;
          model.ServicePortName := portName;
          model.EndpointPort := portNum;
          model.Health := model.Healthy;
          model.Workload := pod;
          model.DiscoverabilityPolicy := policy |} |}.

Definition entry (a : string) (ready serving : option bool) : v1.Endpoint :=
  {| v1.Addresses := [a];
     v1.Conditions := {| v1.Ready := ready; v1.Serving := serving; v1.Terminating := None |};
     v1.TargetRef := None |}.

Definition sliceOf (name : string) (addressType : v1.AddressType)
    (endpoints : list v1.Endpoint) (ports : list v1.EndpointPort) : v1.EndpointSlice :=
  {| v1.slice_Name := name;
     v1.slice_Namespace := "default";
     v1.slice_AddressType := addressType;
     v1.Endpoints := endpoints;
     v1.Ports := ports |}.

Definition namedPort : v1.EndpointPort :=
  {| v1.port_Name := Some "http"; v1.port_Port := Some 8080 |}.

(** A ready entry, a draining one, one that is down and one whose readiness
    is unknown. *)
Definition exampleSlice : v1.EndpointSlice :=
  sliceOf "slice-a" v1.AddressTypeIPv4
    [ entry "10.0.0.5" (Some true) (Some true);
      entry "10.0.0.6" (Some false) (Some true);
      entry "10.0.0.7" (Some false) (Some false);
      entry "10.0.0.8" None None ]
    [ namedPort ].

(** A second partition that reports 10.0.0.5 again. *)
Definition overlapSlice : v1.EndpointSlice :=
  sliceOf "slice-b" v1.AddressTypeIPv4 [ entry "10.0.0.5" (Some true) (Some true) ] [ namedPort ].

(** A partition whose only entry is down. *)
Definition downSlice : v1.EndpointSlice :=
  sliceOf "slice-a" v1.AddressTypeIPv4 [ entry "10.0.0.7" (Some false) (Some false) ] [ namedPort ].

(** A partition whose port declares neither name nor number. *)
Definition barePort : v1.EndpointPort :=
  {| v1.port_Name := None; v1.port_Port := None |}.

Definition malformedSlice : v1.EndpointSlice :=
  sliceOf "slice-m" v1.AddressTypeIPv4 [ entry "10.0.0.5" (Some true) (Some true) ] [ barePort ].

(** A partition of FQDN type. *)
Definition fqdnEntry : v1.Endpoint := entry "db.example.com" (Some true) (Some true).

Definition fqdnSlice : v1.EndpointSlice :=
  sliceOf "slice-a" v1.AddressTypeFQDN [ fqdnEntry ] [ namedPort ].

Definition endpointAt (a : string) (st : model.HealthStatus) : model.IstioEndpoint :=
  {| model.Address := a;
     model.ServicePortName := "http";
     model.EndpointPort := 8080;
     model.Health := st;
     model.Workload := Some a;
     model.DiscoverabilityPolicy := "always" |}.

Definition controllerWith (listed : list v1.EndpointSlice) (cache : endpointSliceCache)
  : endpointSliceController :=
  {| c := exampleController;
     listSlices := fun _ _ => Ok listed;
     endpointCache := cache |}.

(** A cache in which partition "slice-a" of the service holds one endpoint. *)
Definition priorCache : endpointSliceCache :=
  Update exampleHost "slice-a" [endpointAt "10.0.0.5" model.Healthy] newEndpointSliceCache.

(** A cache in which two partitions hold the same (address, port name) key
    with different statuses. *)
Definition overlapCache : endpointSliceCache :=
  Update exampleHost "slice-b" [endpointAt "10.0.0.5" model.Draining] priorCache.


(** ** The rest of the controller

    The functions of the file beside the cache, the processor and the
    by-port query: rebuilding the cache from a listing, forgetting a
    partition, and the by-proxy query. *)

(** [types.NamespacedName] *)
Record NamespacedName := {
  nn_Namespace : string;
  nn_Name : string }.

(** The fields of [model.Proxy] the by-proxy query reads. *)
Record Proxy := {
  IPAddresses : list string;
  proxy_ID : string;
  proxy_Namespace : string }.

(** [c.opts.Metrics.AddMetric(model.ProxyStatusEndpointNotReady, key, proxyID, msg)]:
    the calls are collected in order. *)
Record MetricEvent := {
  metric_key : string;
  metric_proxyID : string;
  metric_msg : string }.

(** What these functions ask of the controller besides [Controller]: the
    service index by namespaced name, the pod of a proxy, whether a metrics
    sink is set ([c.opts.Metrics != nil]), the labels of a slice's metadata
    ([GetLabels]; a nil map reads as the empty one) and [kube.KeyFunc].  All
    are declared outside this file. *)
Record ControllerIndex := {
  servicesForNamespacedName : NamespacedName → list model.Service;
  hostNamesForNamespacedName : NamespacedName → list string;
  getPodByProxy : Proxy → option v1.Pod;
  Metrics : bool;
  GetLabels : v1.EndpointSlice → gmap string string;
  KeyFunc : string → string → string }.

(** Modelled from the spec: [PortList.Get] is declared outside this file.
    The by-proxy query pairs a partition port with the "declared" port of
    its name: the first declared port with that name, if any. *)
Definition PortList_Get (ports : list model.Port) (name : string) : option model.Port :=
  List.find (fun p => bool_decide (model.port_Name p = name)) ports.

(** [endpointSliceSelector]: the multi-cluster label must not exist. *)
Definition endpointSliceSelector : Selector :=
  {| matchLabels := []; doesNotExist := [mcsLabelServiceName] |}.

Definition serviceNameForEndpointSlice (labels : gmap string string) : string :=
  default "" (labels !! LabelServiceName).

Definition getServiceNamespacedName (idx : ControllerIndex) (slice : v1.EndpointSlice)
  : NamespacedName :=
  {| nn_Namespace := v1.slice_Namespace slice;
     nn_Name := serviceNameForEndpointSlice (GetLabels idx slice) |}.

(** The state of the by-proxy loops: the instances and the metric calls so far. *)
Definition proxyState : Type := list model.ServiceInstance * list MetricEvent.

(** [ep.Conditions.Ready != nil && !*ep.Conditions.Ready && c.opts.Metrics != nil] *)
Definition reportsNotReady (idx : ControllerIndex) (e : v1.Endpoint) : bool :=
  match v1.Ready (v1.Conditions e) with
  | None => false
  | Some r => negb r && Metrics idx
  end.

(** The three inner loops of [sliceServiceInstances] for one partition port
    with its declared service port: over the proxy's addresses, the entries
    and their addresses. *)
Definition proxyAddressLoop (ctl : Controller) (idx : ControllerIndex)
    (slice : v1.EndpointSlice) (proxy : Proxy) (svc : model.Service)
    (pod : option v1.Pod) (policy : model.EndpointDiscoverabilityPolicy)
    (portNum : Z) (svcPort : model.Port) (st : proxyState) : proxyState :=
  foldl (fun st ip =>
    foldl (fun st e =>
      foldl (fun (st : proxyState) a =>
               if decide (a = ip) then
                 let istioEndpoint :=
                   buildIstioEndpoint ctl pod ip portNum (model.port_Name svcPort) policy in
                 let out := st.1 ++ [ {| model.inst_Endpoint := istioEndpoint;
                                         model.inst_ServicePort := svcPort;
                                         model.inst_Service := svc |} ] in
                 (* If the endpoint isn't ready, report this *)
                 if reportsNotReady idx e
                 then (out, st.2 ++ [ {| metric_key := proxy_ID proxy;
                                         metric_proxyID := proxy_ID proxy;
                                         metric_msg := "" |} ])
                 else (out, st.2)
               else st)
            st (v1.Addresses e))
      st (v1.Endpoints slice))
    st (IPAddresses proxy).

(** The loop over [ep.Ports] for one service. *)
Definition proxyPortLoop (ctl : Controller) (idx : ControllerIndex)
    (slice : v1.EndpointSlice) (proxy : Proxy) (st : proxyState)
    (svc : model.Service) : proxyState :=
  let pod := getPodByProxy idx proxy in
  let discoverabilityPolicy := EndpointDiscoverabilityPolicy ctl (Some svc) in
  foldl (fun st port =>
           match v1.port_Name port, v1.port_Port port with
           | Some name, Some portNum =>
               match PortList_Get (model.svc_Ports svc) name with
               | None => st                                  (* !exists: continue *)
               | Some svcPort =>
                   proxyAddressLoop ctl idx slice proxy svc pod discoverabilityPolicy
                     portNum svcPort st
               end
           | _, _ => st                                      (* continue *)
           end)
        st (v1.Ports slice).

Definition sliceServiceInstances (ctl : Controller) (idx : ControllerIndex)
    (slice : v1.EndpointSlice) (proxy : Proxy) (metrics : list MetricEvent) : proxyState :=
  if decide (v1.slice_AddressType slice = v1.AddressTypeFQDN) then ([], metrics)
  else
    foldl (proxyPortLoop ctl idx slice proxy) ([], metrics)
      (servicesForNamespacedName idx (getServiceNamespacedName idx slice)).

Definition GetProxyServiceInstances (esc : endpointSliceController) (ctl : Controller)
    (idx : ControllerIndex) (proxy : Proxy) : proxyState :=
  match listSlices esc (proxy_Namespace proxy) endpointSliceSelector with
  | Err _ => ([], [])
  | Ok eps =>
      foldl (fun (st : proxyState) slice =>
               let r := sliceServiceInstances ctl idx slice proxy st.2 in
               (st.1 ++ r.1, r.2))
            ([], []) eps
  end.

(** [forgetEndpoint]: the pod cache is told of every address
    ([endpointDeleted(key, a)], collected in order), then the partition is
    removed from every host of the slice's service that the cache knows. *)
Record forgotten := {
  forgot_esc : endpointSliceController;
  forgot_out : gmap string (list model.IstioEndpoint);
  forgot_pods : list (string * string) }.

Definition forgetStep (slice : v1.EndpointSlice)
    (st : endpointSliceCache * gmap string (list model.IstioEndpoint)) (hostName : string)
  : endpointSliceCache * gmap string (list model.IstioEndpoint) :=
  if Has hostName st.1 then
    let cache := Delete hostName (v1.slice_Name slice) st.1 in
    (cache, <[hostName := Get hostName cache]> st.2)
  else st.

Definition forgetEndpoint (esc : endpointSliceController) (idx : ControllerIndex)
    (slice : v1.EndpointSlice) : forgotten :=
  let key := KeyFunc idx (v1.slice_Name slice) (v1.slice_Namespace slice) in
  let pods := e ← v1.Endpoints slice; a ← v1.Addresses e; [(key, a)] in
  let st := foldl (forgetStep slice) (endpointCache esc, ∅)
              (hostNamesForNamespacedName idx (getServiceNamespacedName idx slice)) in
  {| forgot_esc := withCache esc st.1; forgot_out := st.2; forgot_pods := pods |}.

(** [buildIstioEndpointsWithService] *)
Definition buildIstioEndpointsWithService (flags : features.Flags)
    (esc : endpointSliceController) (name namespace hostName : string) (updateCache : bool)
  : endpointSliceController * list model.IstioEndpoint :=
  match listSlices esc namespace (endpointSliceSelectorForService name) with
  | Err _ => (esc, [])
  | Ok slices =>
      if decide (length slices = 0%nat) then (esc, [])
      else
        let esc :=
          if updateCache
          then foldl (fun esc slice => updateEndpointCacheForSlice flags esc hostName slice)
                 esc slices
          else esc in
        (esc, Get hostName (endpointCache esc))
  end.


(** ** Reference definitions for the by-proxy query *)

(** Every (service, partition port, proxy address, entry, entry address)
    combination, in the order of the five loops. *)
Definition proxyCombinations (idx : ControllerIndex) (slice : v1.EndpointSlice) (proxy : Proxy)
  : list (model.Service * v1.EndpointPort * string * v1.Endpoint * string) :=
  svc ← servicesForNamespacedName idx (getServiceNamespacedName idx slice);
  port ← v1.Ports slice; ip ← IPAddresses proxy;
  e ← v1.Endpoints slice; a ← v1.Addresses e; [(svc, port, ip, e, a)].

(** The instance of a combination: the port has a name and a number, the
    service declares a port of that name, and the entry address is the
    proxy address. *)
Definition proxyInstanceOf (ctl : Controller) (idx : ControllerIndex) (proxy : Proxy)
    (x : model.Service * v1.EndpointPort * string * v1.Endpoint * string)
  : option model.ServiceInstance :=
  let '(svc, port, ip, e, a) := x in
  name ← v1.port_Name port;
  portNum ← v1.port_Port port;
  svcPort ← PortList_Get (model.svc_Ports svc) name;
  if decide (a = ip) then
    Some {| model.inst_Endpoint :=
              buildIstioEndpoint ctl (getPodByProxy idx proxy) ip portNum
                (model.port_Name svcPort) (EndpointDiscoverabilityPolicy ctl (Some svc));
            model.inst_ServicePort := svcPort;
            model.inst_Service := svc |}
  else None.

(** The metric call of a combination: it yields an instance, its entry is
    explicitly not ready and a metrics sink is set. *)
Definition proxyMetricOf (ctl : Controller) (idx : ControllerIndex) (proxy : Proxy)
    (x : model.Service * v1.EndpointPort * string * v1.Endpoint * string)
  : option MetricEvent :=
  match proxyInstanceOf ctl idx proxy x with
  | Some _ =>
      if reportsNotReady idx x.1.2
      then Some {| metric_key := proxy_ID proxy;
                   metric_proxyID := proxy_ID proxy;
                   metric_msg := "" |}
      else None
  | None => None
  end.

(** A partition with the conditions of every entry changed by [f]. *)
Definition withConditions (f : v1.EndpointConditions → v1.EndpointConditions)
    (slice : v1.EndpointSlice) : v1.EndpointSlice :=
  {| v1.slice_Name := v1.slice_Name slice;
     v1.slice_Namespace := v1.slice_Namespace slice;
     v1.slice_AddressType := v1.slice_AddressType slice;
     v1.Endpoints :=
       (fun e => {| v1.Addresses := v1.Addresses e;
                    v1.Conditions := f (v1.Conditions e);
                    v1.TargetRef := v1.TargetRef e |}) <$> v1.Endpoints slice;
     v1.Ports := v1.Ports slice |}.

(** ** Further example inputs *)

(** Every slice belongs to the example service, which has two host names,
    one of them unknown to the caches above; a metrics sink is set. *)
Definition exampleIndex : ControllerIndex :=
  {| servicesForNamespacedName := fun _ => [exampleService];
     hostNamesForNamespacedName := fun _ => [exampleHost; "svc.default.svc.clusterset.local"];
     getPodByProxy := fun proxy => Some (proxy_ID proxy);
     Metrics := true;
     GetLabels := fun _ => {[ LabelServiceName := "svc" ]};
     KeyFunc := fun name namespace => namespace +:+ "/" +:+ name |}.

(** A dual-stack proxy; its first address is 10.0.0.6. *)
Definition exampleProxy : Proxy :=
  {| IPAddresses := ["10.0.0.6"; "fd00::6"];
     proxy_ID := "sidecar~10.0.0.6";
     proxy_Namespace := "default" |}.

(** A partition with a named port, a port of unknown name and a port
    without number, all on the addresses of [exampleSlice]. *)
Definition mixedPortsSlice : v1.EndpointSlice :=
  sliceOf "slice-a" v1.AddressTypeIPv4 (v1.Endpoints exampleSlice)
    [ namedPort;
      {| v1.port_Name := Some "grpc"; v1.port_Port := Some 9090 |};
      {| v1.port_Name := Some "http"; v1.port_Port := None |};
      barePort ].


(** * Proofs *)

(** ** The cache as a map of maps *)

Lemma Update_map hostname slice endpoints e :
  endpointsByServiceAndSlice (Update hostname slice endpoints e)
  = <[hostname := <[slice := endpoints]> (slicesOf hostname e)]>
      (endpointsByServiceAndSlice e).
Proof.
  destruct e as [m]. unfold Update, slicesOf. simpl.
  apply map_eq. intros h.
  destruct (decide (h = hostname)) as [->|Hne].
  - rewrite lookup_insert_eq, lookup_alter_eq.
    case_decide as Hlen.
    + rewrite lookup_alter_eq.
      destruct (m !! hostname) as [inner|] eqn:Hm; simpl.
      * rewrite lookup_alter_eq, Hm. simpl.
        by rewrite insert_delete_eq.
      * by rewrite lookup_insert_eq.
    + destruct (m !! hostname) as [inner|] eqn:Hm; simpl.
      * by rewrite Hm.
      * by rewrite lookup_insert_eq.
  - rewrite lookup_insert_ne, lookup_alter_ne by done.
    case_decide as Hlen.
    + destruct (alter (delete slice) hostname m !! hostname).
      * by rewrite lookup_alter_ne.
      * rewrite lookup_insert_ne by done. by rewrite lookup_alter_ne.
    + destruct (m !! hostname); [done|]. by rewrite lookup_insert_ne.
Qed.

Lemma slicesOf_Update hostname slice endpoints e :
  slicesOf hostname (Update hostname slice endpoints e)
  = <[slice := endpoints]> (slicesOf hostname e).
Proof.
  unfold slicesOf at 1. by rewrite Update_map, lookup_insert_eq.
Qed.

Lemma slicesOf_Update_ne hostname hostname' slice endpoints e :
  hostname ≠ hostname' →
  slicesOf hostname' (Update hostname slice endpoints e) = slicesOf hostname' e.
Proof.
  intros Hne. unfold slicesOf. by rewrite Update_map, lookup_insert_ne.
Qed.

Lemma cache_eq e1 e2 :
  endpointsByServiceAndSlice e1 = endpointsByServiceAndSlice e2 → e1 = e2.
Proof. destruct e1, e2. simpl. by intros ->. Qed.

Lemma Delete_map hostname slice e :
  endpointsByServiceAndSlice (Delete hostname slice e)
  = if decide (delete slice (slicesOf hostname e) = ∅)
    then delete hostname (endpointsByServiceAndSlice e)
    else <[hostname := delete slice (slicesOf hostname e)]> (endpointsByServiceAndSlice e).
Proof.
  destruct e as [m]. unfold Delete, slicesOf. simpl.
  rewrite lookup_alter_eq.
  destruct (m !! hostname) as [inner|] eqn:Hm; simpl.
  - destruct (decide (size (delete slice inner) = 0%nat)) as [Hsz|Hsz].
    + apply map_size_empty_iff in Hsz. rewrite Hsz.
      rewrite decide_True by done.
      apply map_eq. intros h. destruct (decide (h = hostname)) as [->|Hne].
      * by rewrite !lookup_delete_eq.
      * by rewrite !lookup_delete_ne, lookup_alter_ne.
    + rewrite decide_False by (intros Hem; apply Hsz; by rewrite Hem, map_size_empty).
      apply map_eq. intros h. destruct (decide (h = hostname)) as [->|Hne].
      * by rewrite lookup_alter_eq, lookup_insert_eq, Hm.
      * by rewrite lookup_alter_ne, lookup_insert_ne.
  - rewrite delete_empty, map_size_empty. rewrite !decide_True by done.
    apply map_eq. intros h. destruct (decide (h = hostname)) as [->|Hne].
    + by rewrite !lookup_delete_eq.
    + by rewrite !lookup_delete_ne, lookup_alter_ne.
Qed.

Lemma slicesOf_Delete hostname slice e :
  slicesOf hostname (Delete hostname slice e) = delete slice (slicesOf hostname e).
Proof.
  unfold slicesOf at 1. rewrite Delete_map.
  case_decide as Hem.
  - by rewrite lookup_delete_eq, Hem.
  - by rewrite lookup_insert_eq.
Qed.

Lemma Has_true hostname e :
  Has hostname e = true ↔ is_Some (endpointsByServiceAndSlice e !! hostname).
Proof. unfold Has. by rewrite bool_decide_eq_true. Qed.

(** ** The two loops of [Get] *)

Lemma foldl_getStep l : ∀ st : getState,
  foldl getStep st l
  = (list_to_set (keyOf <$> firstByKey st.1 l) ∪ st.1, st.2 ++ firstByKey st.1 l).
Proof.
  induction l as [|ep l IH]; intros [found acc]; simpl.
  - f_equal; [by rewrite union_empty_l_L | by rewrite app_nil_r].
  - unfold getStep at 2. simpl. case_decide as Hin.
    + by rewrite IH.
    + rewrite IH. simpl. f_equal; [|by rewrite <- app_assoc].
      apply set_eq. intros k. rewrite !elem_of_union. tauto.
Qed.

Lemma foldl_slices (order : list (string * list model.IstioEndpoint)) : ∀ st : getState,
  foldl (fun st kv => foldl getStep st kv.2) st order = foldl getStep st (order ≫= snd).
Proof.
  induction order as [|kv order IH]; intros st; simpl; [done|].
  by rewrite foldl_app, IH.
Qed.

Lemma getIn_firstByKey order : getIn order = firstByKey ∅ (order ≫= snd).
Proof. unfold getIn. by rewrite foldl_slices, foldl_getStep. Qed.

Lemma elem_of_firstByKey ep l : ∀ found,
  ep ∈ firstByKey found l → ep ∈ l ∧ keyOf ep ∉ found.
Proof.
  induction l as [|x l IH]; intros found; simpl.
  - by intros ?%elem_of_nil.
  - case_decide as Hin.
    + intros [??]%IH. split; [by right | done].
    + intros [->|[Hep Hnotin]%IH]%elem_of_cons.
      * split; [by left | done].
      * split; [by right|]. intros Hfound. by apply Hnotin, elem_of_union_r.
Qed.

Lemma NoDup_firstByKey l : ∀ found, NoDup (keyOf <$> firstByKey found l).
Proof.
  induction l as [|x l IH]; intros found; simpl; [constructor|].
  case_decide as Hin; [apply IH|].
  rewrite fmap_cons. constructor; [|apply IH].
  intros (ep & Hkey & Hep)%list_elem_of_fmap.
  apply elem_of_firstByKey in Hep as [_ Hnotin].
  apply Hnotin. rewrite <- Hkey. apply elem_of_union_l. by apply elem_of_singleton.
Qed.

Lemma firstByKey_covers ep l : ∀ found,
  ep ∈ l → keyOf ep ∉ found → keyOf ep ∈ keyOf <$> firstByKey found l.
Proof.
  induction l as [|x l IH]; intros found; simpl.
  - by intros ?%elem_of_nil.
  - intros [->|Hin]%elem_of_cons Hnotin.
    + rewrite decide_False by done. rewrite fmap_cons. by left.
    + case_decide as Hx; [by apply IH|].
      rewrite fmap_cons. destruct (decide (keyOf ep = keyOf x)) as [->|Hne].
      * by left.
      * right. apply IH; [done|].
        intros [Heq%elem_of_singleton|Hfound]%elem_of_union; contradiction.
Qed.

Lemma filter_key_nil {A B} `{EqDecision B} (f : A → B) (l : list A) (k : B) :
  k ∉ f <$> l → filter (fun y => f y = k) l = [].
Proof.
  induction l as [|y l IH]; [done|].
  rewrite fmap_cons, not_elem_of_cons. intros [Hne Hnotin].
  rewrite filter_cons_False by congruence. by apply IH.
Qed.

Lemma NoDup_fmap_count {A B} `{EqDecision B} (f : A → B) (l : list A) (k : B) :
  NoDup (f <$> l) → k ∈ f <$> l → length (filter (fun y => f y = k) l) = 1%nat.
Proof.
  induction l as [|y l IH].
  - intros _ Hin. by apply elem_of_nil in Hin.
  - rewrite fmap_cons. intros [Hnotin Hnd]%NoDup_cons Hin.
    destruct (decide (f y = k)) as [Heq|Hne].
    + rewrite filter_cons_True by done. simpl.
      rewrite filter_key_nil; [done | by rewrite <- Heq].
    + rewrite filter_cons_False by done.
      apply IH; [done|]. apply elem_of_cons in Hin as [?|?]; [congruence | done].
Qed.

(** The slices [Get] ranges over, whatever the order. *)
Lemma elem_of_order hostname e order slice eps :
  order ≡ₚ map_to_list (slicesOf hostname e) →
  (slice, eps) ∈ order ↔ slicesOf hostname e !! slice = Some eps.
Proof. intros ->. apply elem_of_map_to_list. Qed.

Lemma elem_of_slices hostname e order ep :
  order ≡ₚ map_to_list (slicesOf hostname e) →
  ep ∈ order ≫= snd ↔ ∃ slice eps, slicesOf hostname e !! slice = Some eps ∧ ep ∈ eps.
Proof.
  intros Hperm. rewrite list_elem_of_bind. split.
  - intros ([slice eps] & Hep & Hin). exists slice, eps.
    split; [by eapply elem_of_order | done].
  - intros (slice & eps & Hl & Hep). exists (slice, eps).
    split; [done | by eapply elem_of_order].
Qed.

Lemma Get_GetAny hostname e : GetAny hostname e (Get hostname e).
Proof. by exists (map_to_list (slicesOf hostname e)). Qed.

(** Every result of [Get] has one endpoint per key, drawn from the slices
    of the service, and covers every key the slices hold. *)
Lemma GetAny_spec hostname e out :
  GetAny hostname e out →
  NoDup (keyOf <$> out) ∧
  (∀ ep, ep ∈ out →
     ∃ slice eps, slicesOf hostname e !! slice = Some eps ∧ ep ∈ eps) ∧
  (∀ slice eps ep, slicesOf hostname e !! slice = Some eps → ep ∈ eps →
     keyOf ep ∈ keyOf <$> out).
Proof.
  intros (order & Hperm & ->). rewrite getIn_firstByKey. split_and!.
  - apply NoDup_firstByKey.
  - intros ep [Hep _]%elem_of_firstByKey. by eapply elem_of_slices.
  - intros slice eps ep Hl Hep. apply firstByKey_covers; [|set_solver].
    eapply elem_of_slices; eauto.
Qed.

(** ** Claims about the cache *)

(** C2: every result of [Get] holds at most one endpoint per (address, port
    name) key; it is drawn from the slices of the service, and of the
    endpoints of the slices that share a key exactly one is in the result. *)
Theorem Get_one_per_key hostname e out :
  GetAny hostname e out →
  NoDup (keyOf <$> out) ∧
  (∀ ep, ep ∈ out →
     ∃ slice eps, slicesOf hostname e !! slice = Some eps ∧ ep ∈ eps) ∧
  (∀ slice1 slice2 eps1 eps2 ep1 ep2,
     slicesOf hostname e !! slice1 = Some eps1 → ep1 ∈ eps1 →
     slicesOf hostname e !! slice2 = Some eps2 → ep2 ∈ eps2 →
     keyOf ep1 = keyOf ep2 →
     ∃ ep, filter (fun x => keyOf x = keyOf ep1) out = [ep] ∧
           keyOf ep = keyOf ep1 ∧
           ∃ slice eps, slicesOf hostname e !! slice = Some eps ∧ ep ∈ eps).
Proof.
  intros Hget. destruct (GetAny_spec _ _ _ Hget) as (Hnd & Hsub & Hcov).
  split_and!; [done | done |].
  intros slice1 _ eps1 _ ep1 _ Hl1 Hep1 _ _ _.
  pose proof (NoDup_fmap_count keyOf out (keyOf ep1) Hnd (Hcov _ _ _ Hl1 Hep1)) as Hlen.
  destruct (filter (fun x => keyOf x = keyOf ep1) out) as [|ep [|??]] eqn:Hf;
    simpl in Hlen; try lia.
  exists ep. split; [done|].
  assert (ep ∈ filter (fun x => keyOf x = keyOf ep1) out) as Hin
    by (rewrite Hf; by left).
  apply list_elem_of_filter in Hin as [Hkey Hin]. split; [done | by apply Hsub].
Qed.

(** Two partitions hold the key (10.0.0.5, http); one of the two endpoints
    is returned. *)
Lemma Get_one_per_key_witness :
  GetAny exampleHost overlapCache (Get exampleHost overlapCache) ∧
  slicesOf exampleHost overlapCache !! "slice-a" = Some [endpointAt "10.0.0.5" model.Healthy] ∧
  slicesOf exampleHost overlapCache !! "slice-b" = Some [endpointAt "10.0.0.5" model.Draining] ∧
  NoDup (keyOf <$> Get exampleHost overlapCache) ∧
  ∃ ep,
    filter (fun x => keyOf x = keyOf (endpointAt "10.0.0.5" model.Healthy))
      (Get exampleHost overlapCache) = [ep] ∧
    keyOf ep = keyOf (endpointAt "10.0.0.5" model.Healthy) ∧
    ∃ slice eps, slicesOf exampleHost overlapCache !! slice = Some eps ∧ ep ∈ eps.
Proof.
  pose proof (Get_GetAny exampleHost overlapCache) as Hget.
  assert (slicesOf exampleHost overlapCache !! "slice-a"
          = Some [endpointAt "10.0.0.5" model.Healthy]) as Ha by (by vm_compute).
  assert (slicesOf exampleHost overlapCache !! "slice-b"
          = Some [endpointAt "10.0.0.5" model.Draining]) as Hb by (by vm_compute).
  destruct (Get_one_per_key exampleHost overlapCache _ Hget) as (Hnd & _ & Hone).
  split_and!; [done | done | done | done |].
  apply (Hone "slice-a" "slice-b" _ _ (endpointAt "10.0.0.5" model.Healthy)
           (endpointAt "10.0.0.5" model.Draining) Ha (list_elem_of_here _ _)
           Hb (list_elem_of_here _ _) eq_refl).
Defined.

(** C3: a second [Update] of a slice replaces the first. *)
Theorem Update_replaces hostname slice E1 E2 e out :
  GetAny hostname (Update hostname slice E2 (Update hostname slice E1 e)) out →
  Update hostname slice E2 (Update hostname slice E1 e) = Update hostname slice E2 e ∧
  slicesOf hostname (Update hostname slice E2 (Update hostname slice E1 e)) !! slice
    = Some E2 ∧
  ∀ ep, ep ∈ out →
    ep ∈ E2 ∨
    ∃ slice' eps, slice' ≠ slice ∧ slicesOf hostname e !! slice' = Some eps ∧ ep ∈ eps.
Proof.
  intros Hget.
  assert (Update hostname slice E2 (Update hostname slice E1 e)
          = Update hostname slice E2 e) as Heq.
  { apply cache_eq. rewrite !Update_map, slicesOf_Update.
    by rewrite !insert_insert_eq. }
  split_and!; [done | by rewrite slicesOf_Update, lookup_insert_eq |].
  rewrite Heq in Hget. apply GetAny_spec in Hget as (_ & Hsub & _).
  intros ep (slice' & eps & Hl & Hep)%Hsub.
  rewrite slicesOf_Update in Hl.
  destruct (decide (slice' = slice)) as [->|Hne].
  - rewrite lookup_insert_eq in Hl. left. congruence.
  - rewrite lookup_insert_ne in Hl by done. right. eauto.
Qed.

(** The endpoint of the first update is gone after the second. *)
Lemma Update_replaces_witness :
  GetAny exampleHost
    (Update exampleHost "slice-b" [endpointAt "10.0.0.7" model.Healthy]
       (Update exampleHost "slice-b" [endpointAt "10.0.0.6" model.Healthy] priorCache))
    [endpointAt "10.0.0.5" model.Healthy; endpointAt "10.0.0.7" model.Healthy] ∧
  slicesOf exampleHost
    (Update exampleHost "slice-b" [endpointAt "10.0.0.7" model.Healthy]
       (Update exampleHost "slice-b" [endpointAt "10.0.0.6" model.Healthy] priorCache))
    !! "slice-b"
  = Some [endpointAt "10.0.0.7" model.Healthy].
Proof.
  assert (GetAny exampleHost
            (Update exampleHost "slice-b" [endpointAt "10.0.0.7" model.Healthy]
               (Update exampleHost "slice-b" [endpointAt "10.0.0.6" model.Healthy] priorCache))
            [endpointAt "10.0.0.5" model.Healthy; endpointAt "10.0.0.7" model.Healthy]) as Hget.
  { eexists. split; [reflexivity | by vm_compute]. }
  split; [exact Hget|].
  exact (proj1 (proj2 (Update_replaces _ _ _ _ _ _ Hget))).
Defined.

(** C4: an [Update] with no endpoints records an empty slice. *)
Theorem Update_empty_keeps_slice hostname slice e :
  slicesOf hostname (Update hostname slice [] e) !! slice = Some [] ∧
  Has hostname (Update hostname slice [] e) = true ∧
  ∀ out, GetAny hostname (Update hostname slice [] e) out →
    ∀ ep, ep ∈ out →
      ∃ slice' eps, slice' ≠ slice ∧ slicesOf hostname e !! slice' = Some eps ∧ ep ∈ eps.
Proof.
  split_and!.
  - by rewrite slicesOf_Update, lookup_insert_eq.
  - apply Has_true. rewrite Update_map, lookup_insert_eq. eauto.
  - intros out (_ & Hsub & _)%GetAny_spec ep (slice' & eps & Hl & Hep)%Hsub.
    rewrite slicesOf_Update in Hl.
    destruct (decide (slice' = slice)) as [->|Hne].
    + rewrite lookup_insert_eq in Hl. injection Hl as <-. by apply elem_of_nil in Hep.
    + rewrite lookup_insert_ne in Hl by done. eauto.
Qed.

(** An empty update of a partition, also the first one of a service. *)
Lemma Update_empty_keeps_slice_witness :
  slicesOf exampleHost (Update exampleHost "slice-b" [] priorCache) !! "slice-b" = Some [] ∧
  Has exampleHost (Update exampleHost "slice-b" [] priorCache) = true ∧
  Has "other" (Update "other" "slice-b" [] newEndpointSliceCache) = true ∧
  Get "other" (Update "other" "slice-b" [] newEndpointSliceCache) = [].
Proof.
  destruct (Update_empty_keeps_slice exampleHost "slice-b" priorCache) as (Hslice & HHas & _).
  destruct (Update_empty_keeps_slice "other" "slice-b" newEndpointSliceCache)
    as (_ & HHas' & _).
  split_and!; [done | done | done | by vm_compute].
Defined.

(** C6: [Delete] removes the slice and nothing else; the service goes with
    its last slice. *)
Theorem Delete_removes hostname slice e :
  slicesOf hostname (Delete hostname slice e) = delete slice (slicesOf hostname e) ∧
  (∀ hostname', hostname' ≠ hostname →
     endpointsByServiceAndSlice (Delete hostname slice e) !! hostname'
     = endpointsByServiceAndSlice e !! hostname') ∧
  (∀ out, GetAny hostname (Delete hostname slice e) out →
     (∀ ep, ep ∈ out →
        ∃ slice' eps, slice' ≠ slice ∧ slicesOf hostname e !! slice' = Some eps ∧ ep ∈ eps) ∧
     (∀ slice' eps ep, slice' ≠ slice → slicesOf hostname e !! slice' = Some eps →
        ep ∈ eps → keyOf ep ∈ keyOf <$> out)) ∧
  (Has hostname (Delete hostname slice e) = true ↔
     ∃ slice', slice' ≠ slice ∧ is_Some (slicesOf hostname e !! slice')) ∧
  ((∀ slice', is_Some (slicesOf hostname e !! slice') → slice' = slice) →
     Has hostname (Delete hostname slice e) = false).
Proof.
  assert (Has hostname (Delete hostname slice e) = true ↔
          ∃ slice', slice' ≠ slice ∧ is_Some (slicesOf hostname e !! slice')) as HHas.
  { rewrite Has_true, Delete_map. case_decide as Hem.
    - rewrite lookup_delete_eq. split; [by intros [??]|].
      intros (slice' & Hne & Hsome). exfalso.
      apply (f_equal (fun m => m !! slice')) in Hem.
      rewrite lookup_delete_ne, lookup_empty in Hem by done.
      rewrite Hem in Hsome. by destruct Hsome.
    - rewrite lookup_insert_eq. split; [|eauto]. intros _.
      apply map_choose in Hem as (slice' & eps & Hl).
      apply lookup_delete_Some in Hl as [Hne Hl]. eauto. }
  split_and!.
  - apply slicesOf_Delete.
  - intros hostname' Hne. rewrite Delete_map.
    case_decide; [by rewrite lookup_delete_ne | by rewrite lookup_insert_ne].
  - intros out (_ & Hsub & Hcov)%GetAny_spec. split.
    + intros ep (slice' & eps & Hl & Hep)%Hsub.
      rewrite slicesOf_Delete in Hl. apply lookup_delete_Some in Hl as [Hne Hl]. eauto.
    + intros slice' eps ep Hne Hl Hep. apply (Hcov slice' eps); [|done].
      rewrite slicesOf_Delete. by rewrite lookup_delete_ne.
  - done.
  - intros Honly. apply not_true_is_false. rewrite HHas.
    intros (slice' & Hne & Hsome). by apply Hne, Honly.
Qed.

(** Deleting the only partition of the service, and one of two. *)
Lemma Delete_removes_witness :
  (∀ slice', is_Some (slicesOf exampleHost priorCache !! slice') → slice' = "slice-a") ∧
  Has exampleHost priorCache = true ∧
  Has exampleHost (Delete exampleHost "slice-a" priorCache) = false ∧
  slicesOf exampleHost (Delete exampleHost "slice-a" overlapCache)
  = delete "slice-a" (slicesOf exampleHost overlapCache).
Proof.
  assert (∀ slice', is_Some (slicesOf exampleHost priorCache !! slice') → slice' = "slice-a")
    as Hlast.
  { intros slice' Hsome. destruct (decide (slice' = "slice-a")) as [|Hne]; [done|].
    exfalso. unfold priorCache in Hsome.
    rewrite slicesOf_Update, lookup_insert_ne in Hsome by done.
    destruct Hsome as [eps Heps]. by vm_compute in Heps. }
  destruct (Delete_removes exampleHost "slice-a" priorCache) as (_ & _ & _ & _ & Hgone).
  destruct (Delete_removes exampleHost "slice-a" overlapCache) as (Hdel & _).
  split_and!; [exact Hlast | by vm_compute | exact (Hgone Hlast) | exact Hdel].
Defined.

(** C7: [Update] is idempotent. *)
Theorem Update_idempotent hostname slice endpoints e :
  Update hostname slice endpoints (Update hostname slice endpoints e)
  = Update hostname slice endpoints e ∧
  ∀ out,
    GetAny hostname (Update hostname slice endpoints (Update hostname slice endpoints e)) out
    ↔ GetAny hostname (Update hostname slice endpoints e) out.
Proof.
  assert (Update hostname slice endpoints (Update hostname slice endpoints e)
          = Update hostname slice endpoints e) as Heq.
  { apply cache_eq. rewrite !Update_map, slicesOf_Update.
    by rewrite !insert_insert_eq. }
  split; [done|]. intros out. by rewrite Heq.
Qed.

(** C10: no reachable cache records a service without slices; [Has] holds
    exactly of the services with a recorded slice. *)
Theorem reachable_no_empty_service e :
  reachable e →
  (∀ hostname slices,
     endpointsByServiceAndSlice e !! hostname = Some slices → slices ≠ ∅) ∧
  (∀ hostname,
     Has hostname e = true ↔ ∃ slice eps, slicesOf hostname e !! slice = Some eps).
Proof.
  intros Hreach.
  assert (∀ hostname slices,
            endpointsByServiceAndSlice e !! hostname = Some slices → slices ≠ ∅) as Hinv.
  { induction Hreach as [|h s eps e _ IH|h s e _ IH]; intros hostname slices.
    - simpl. by rewrite lookup_empty.
    - rewrite Update_map. destruct (decide (hostname = h)) as [->|Hne].
      + rewrite lookup_insert_eq. intros [= <-]. apply insert_non_empty.
      + rewrite lookup_insert_ne by done. apply IH.
    - rewrite Delete_map. case_decide as Hem.
      + destruct (decide (hostname = h)) as [->|Hne].
        * by rewrite lookup_delete_eq.
        * rewrite lookup_delete_ne by done. apply IH.
      + destruct (decide (hostname = h)) as [->|Hne].
        * rewrite lookup_insert_eq. by intros [= <-].
        * rewrite lookup_insert_ne by done. apply IH. }
  split; [done|]. intros hostname. rewrite Has_true. unfold slicesOf. split.
  - intros [slices Hl]. rewrite Hl. simpl. apply map_choose. by eapply Hinv.
  - intros (slice & eps & Hl).
    destruct (endpointsByServiceAndSlice e !! hostname); [eauto|].
    simpl in Hl. by rewrite lookup_empty in Hl.
Qed.

(** A cache built by two updates and a removal. *)
Lemma reachable_no_empty_service_witness :
  reachable (Delete exampleHost "slice-a" overlapCache) ∧
  (Has exampleHost (Delete exampleHost "slice-a" overlapCache) = true ↔
   ∃ slice eps,
     slicesOf exampleHost (Delete exampleHost "slice-a" overlapCache) !! slice = Some eps).
Proof.
  assert (reachable (Delete exampleHost "slice-a" overlapCache)) as Hreach.
  { apply reach_delete, reach_update, reach_update, reach_new. }
  split; [exact Hreach|].
  apply (proj2 (reachable_no_empty_service _ Hreach) exampleHost).
Defined.

(** ** Loops that append *)

(** A loop whose body appends [F x] to the accumulator collects the
    [F x] in order. *)
Lemma foldl_append {A B} (body : list B → A → list B) (F : A → list B) (l : list A) :
  (∀ acc x, body acc x = acc ++ F x) →
  ∀ acc, foldl body acc l = acc ++ (l ≫= F).
Proof.
  intros Hbody. induction l as [|x l IH]; intros acc.
  - by rewrite app_nil_r.
  - rewrite bind_cons. simpl. by rewrite IH, Hbody, <- app_assoc.
Qed.

Lemma bind_ext_eq {A B} (f g : A → list B) (l : list A) :
  (∀ x, f x = g x) → l ≫= f = l ≫= g.
Proof.
  intros Hfg. induction l as [|x l IH]; [done|]. by rewrite !bind_cons, Hfg, IH.
Qed.

Lemma fmap_filter_bind {A B C} (P : B → Prop) `{∀ x, Decision (P x)}
    (f : B → C) (g : A → list B) (l : list A) :
  f <$> filter P (l ≫= g) = l ≫= (fun x => f <$> filter P (g x)).
Proof.
  induction l as [|x l IH]; [done|].
  by rewrite !bind_cons, filter_app, fmap_app, IH.
Qed.

Lemma bind_unit_fmap {A B} (f : A → B) (l : list A) :
  l ≫= (fun x => [f x]) = f <$> l.
Proof.
  induction l as [|x l IH]; [done|]. by rewrite bind_cons, fmap_cons, IH.
Qed.

(** ** The slice processor *)

Lemma portLoop_spec ctl pod a policy ready draining ports endpoints :
  portLoop ctl pod a policy ready draining ports endpoints
  = endpoints ++ (canonical ctl policy (healthOf ready draining) pod a <$> ports).
Proof.
  unfold portLoop.
  rewrite (foldl_append _ (fun port => [canonical ctl policy (healthOf ready draining) pod a port]))
    by done.
  by rewrite bind_unit_fmap.
Qed.

Lemma addressLoop_spec ctl hostName slice policy ready draining e endpoints :
  addressLoop ctl hostName slice policy ready draining e endpoints
  = endpoints ++
    (a ← v1.Addresses e;
     if podMissing (resolve ctl hostName slice e a) then []
     else canonical ctl policy (healthOf ready draining)
            (resolve ctl hostName slice e a).1 a <$> v1.Ports slice).
Proof.
  unfold addressLoop. apply foldl_append. intros acc a. fold (resolve ctl hostName slice e a).
  destruct (podMissing (resolve ctl hostName slice e a)).
  - by rewrite app_nil_r.
  - apply portLoop_spec.
Qed.

Lemma sliceEndpoints_spec flags ctl hostName slice :
  sliceEndpoints flags ctl hostName slice
  = (e ← v1.Endpoints slice;
     if isIgnored flags (isDraining flags (GetService ctl hostName) e) e then []
     else entryEndpoints ctl hostName slice
            (healthOf (isReady e) (isDraining flags (GetService ctl hostName) e)) e).
Proof.
  unfold sliceEndpoints.
  rewrite (foldl_append _ (fun e =>
     if isIgnored flags (isDraining flags (GetService ctl hostName) e) e then []
     else entryEndpoints ctl hostName slice
            (healthOf (isReady e) (isDraining flags (GetService ctl hostName) e)) e)).
  - done.
  - intros acc e. simpl.
    destruct (isIgnored _ _ e); [by rewrite app_nil_r|].
    apply addressLoop_spec.
Qed.

(** The flags the source computes are those of the table. *)
Lemma isReady_table e : isReady e = tableReady e.
Proof.
  unfold isReady, tableReady.
  destruct (v1.Ready (v1.Conditions e)) as [[]|]; symmetry.
  - apply bool_decide_eq_true. by left.
  - apply bool_decide_eq_false. by intros [|].
  - apply bool_decide_eq_true. by right.
Qed.

Lemma isDraining_table flags svc e : isDraining flags svc e = tableDraining flags svc e.
Proof.
  unfold isDraining, tableDraining, carriesLabel.
  destruct (bool_decide (features.PersistentSessionLabel flags ≠ "")); simpl; [|done].
  destruct svc as [svc|]; [|done].
  destruct (model.Labels (model.Attributes svc)) as [labels|]; [|done].
  destruct (labels !! features.PersistentSessionLabel flags) as [value|]; simpl.
  - destruct (bool_decide (value ≠ "")); simpl; [|done].
    by destruct (v1.Ready (v1.Conditions e)) as [[]|],
                (v1.Serving (v1.Conditions e)) as [[]|].
  - done.
Qed.

Lemma entry_table flags ctl hostName slice e :
  (if isIgnored flags (isDraining flags (GetService ctl hostName) e) e then []
   else entryEndpoints ctl hostName slice
          (healthOf (isReady e) (isDraining flags (GetService ctl hostName) e)) e)
  = tableEndpoints flags ctl hostName slice e.
Proof.
  unfold tableEndpoints. rewrite <- isReady_table, <- isDraining_table.
  unfold isIgnored, isReady, healthOf, decisionTable.
  assert (isDraining flags (GetService ctl hostName) e = true →
          v1.Ready (v1.Conditions e) = Some false) as Hdr.
  { rewrite isDraining_table. unfold tableDraining.
    intros [_ Hr]%andb_true_iff. by apply bool_decide_eq_true in Hr. }
  destruct (isDraining flags (GetService ctl hostName) e).
  - rewrite Hdr by done. simpl. by rewrite andb_false_r.
  - by destruct (v1.Ready (v1.Conditions e)) as [[]|],
                (features.SendUnhealthyEndpoints flags).
Qed.

Lemma sliceEndpoints_table flags ctl hostName slice :
  sliceEndpoints flags ctl hostName slice
  = (v1.Endpoints slice ≫= tableEndpoints flags ctl hostName slice).
Proof.
  rewrite sliceEndpoints_spec. apply bind_ext_eq. intros e. apply entry_table.
Qed.

Lemma processed_cache flags esc hostName slice :
  v1.slice_AddressType slice ≠ v1.AddressTypeFQDN →
  endpointCache (updateEndpointCacheForSlice flags esc hostName slice)
  = Update hostName (v1.slice_Name slice) (sliceEndpoints flags (c esc) hostName slice)
      (endpointCache esc).
Proof. intros Hip. unfold updateEndpointCacheForSlice. by rewrite decide_False. Qed.

Lemma bind_all_nil {A B} (f : A → list B) (l : list A) :
  (∀ x, f x = []) → l ≫= f = [].
Proof. intros Hf. induction l as [|x l IH]; [done|]. by rewrite bind_cons, Hf, IH. Qed.

(** ** The by-port query *)

(** What one combination adds to the result. *)
Lemma instance_of_combination esc ctl svc svcPort slice e a port :
  instanceOf esc ctl svc svcPort
    <$> filter (fun x => Is_true (qualifiesIP ctl svc svcPort x)) [(slice, e, a, port)]
  = if decide (v1.slice_AddressType slice = v1.AddressTypeFQDN) then []
    else if podMissing (resolve ctl (model.Hostname svc) slice e a) then []
    else if portMatches svcPort port
         then [mkInstance (c esc) svc svcPort (EndpointDiscoverabilityPolicy ctl (Some svc))
                 (resolve ctl (model.Hostname svc) slice e a).1 a port]
         else [].
Proof.
  rewrite filter_cons, filter_nil. unfold qualifiesIP, qualifies. simpl.
  case_decide as Hq; case_decide as Hfqdn.
  - apply andb_prop_elim in Hq as [Hq _]. by apply bool_decide_unpack in Hq.
  - apply andb_prop_elim in Hq as [_ [Hm Hp]%andb_prop_elim].
    destruct (podMissing _); [done|]. by destruct (portMatches svcPort port).
  - done.
  - destruct (podMissing _); [done|]. destruct (portMatches svcPort port); [|done].
    exfalso. apply Hq. apply andb_prop_intro. split; [by apply bool_decide_pack | done].
Qed.

(** C1: the endpoints the processor computes for a partition that is not of
    FQDN type, and records for it in the cache, are entry by entry those of
    the decision table. *)
Theorem classification_follows_table flags esc hostName slice :
  v1.slice_AddressType slice ≠ v1.AddressTypeFQDN →
  sliceEndpoints flags (c esc) hostName slice
  = (v1.Endpoints slice ≫= tableEndpoints flags (c esc) hostName slice) ∧
  slicesOf hostName (endpointCache (updateEndpointCacheForSlice flags esc hostName slice))
    !! v1.slice_Name slice
  = Some (v1.Endpoints slice ≫= tableEndpoints flags (c esc) hostName slice).
Proof.
  intros Hip. split; [apply sliceEndpoints_table|].
  rewrite processed_cache by done.
  by rewrite slicesOf_Update, lookup_insert_eq, sliceEndpoints_table.
Qed.

Lemma classification_follows_table_witness :
  v1.slice_AddressType exampleSlice ≠ v1.AddressTypeFQDN ∧
  sliceEndpoints exampleFlags exampleController exampleHost exampleSlice
  = [ endpointAt "10.0.0.5" model.Healthy;
      endpointAt "10.0.0.6" model.Draining;
      endpointAt "10.0.0.8" model.Healthy ] ∧
  slicesOf exampleHost
    (endpointCache
       (updateEndpointCacheForSlice exampleFlags (controllerWith [] newEndpointSliceCache)
          exampleHost exampleSlice))
    !! "slice-a"
  = Some (v1.Endpoints exampleSlice
            ≫= tableEndpoints exampleFlags exampleController exampleHost exampleSlice).
Proof.
  assert (v1.slice_AddressType exampleSlice ≠ v1.AddressTypeFQDN) as Hip by done.
  split; [exact Hip|].
  destruct (classification_follows_table exampleFlags
              (controllerWith [] newEndpointSliceCache) exampleHost exampleSlice Hip)
    as [Hlist Hcache].
  split; [|exact Hcache].
  etrans; [exact Hlist|]. by vm_compute.
Defined.

(** C5, as the code has it: for a partition that is not of FQDN type the
    processor ends with [Update], which records the computed list, empty or
    not, in place of what the partition held; for an FQDN partition it
    returns at once and the cache stays as it was. *)
Theorem processor_writes_slice flags esc hostName slice :
  (v1.slice_AddressType slice ≠ v1.AddressTypeFQDN →
   endpointCache (updateEndpointCacheForSlice flags esc hostName slice)
   = Update hostName (v1.slice_Name slice) (sliceEndpoints flags (c esc) hostName slice)
       (endpointCache esc) ∧
   slicesOf hostName (endpointCache (updateEndpointCacheForSlice flags esc hostName slice))
     !! v1.slice_Name slice
   = Some (sliceEndpoints flags (c esc) hostName slice)) ∧
  (v1.slice_AddressType slice = v1.AddressTypeFQDN →
   updateEndpointCacheForSlice flags esc hostName slice = esc).
Proof.
  split.
  - intros Hip. rewrite processed_cache by done.
    split; [done|]. by rewrite slicesOf_Update, lookup_insert_eq.
  - intros Hfqdn. unfold updateEndpointCacheForSlice. by rewrite decide_True.
Qed.

Lemma processor_writes_slice_witness :
  v1.slice_AddressType downSlice ≠ v1.AddressTypeFQDN ∧
  sliceEndpoints exampleFlags exampleController exampleHost downSlice = [] ∧
  slicesOf exampleHost (endpointCache (controllerWith [] priorCache)) !! "slice-a"
  = Some [endpointAt "10.0.0.5" model.Healthy] ∧
  slicesOf exampleHost
    (endpointCache
       (updateEndpointCacheForSlice exampleFlags (controllerWith [] priorCache)
          exampleHost downSlice))
    !! "slice-a"
  = Some [].
Proof.
  assert (v1.slice_AddressType downSlice ≠ v1.AddressTypeFQDN) as Hip by done.
  split; [exact Hip|].
  split; [by vm_compute|]. split; [by vm_compute|].
  destruct (processor_writes_slice exampleFlags (controllerWith [] priorCache)
              exampleHost downSlice) as [Hwrite _].
  destruct (Hwrite Hip) as [_ Hslice]. etrans; [exact Hslice|]. by vm_compute.
Defined.

(** C5 as stated fails: the processor leaves what an FQDN partition held
    before in the cache, and [Get] still returns it. *)
Lemma FQDN_payload_keeps_prior_contribution :
  v1.slice_AddressType fqdnSlice = v1.AddressTypeFQDN ∧
  v1.slice_Name fqdnSlice = "slice-a" ∧
  slicesOf exampleHost
    (endpointCache
       (updateEndpointCacheForSlice exampleFlags (controllerWith [] priorCache)
          exampleHost fqdnSlice))
    !! "slice-a"
  = Some [endpointAt "10.0.0.5" model.Healthy] ∧
  Get exampleHost
    (endpointCache
       (updateEndpointCacheForSlice exampleFlags (controllerWith [] priorCache)
          exampleHost fqdnSlice))
  = [endpointAt "10.0.0.5" model.Healthy].
Proof. split_and!; by vm_compute. Qed.

(** C8, as the code has it: a port that lacks its name or its number is not
    left out.  For every included entry and every address whose identity is
    not missing, the processor emits the endpoint of that port, with the
    empty string for a missing name and 0 for a missing number. *)
Theorem malformed_port_emitted flags ctl hostName slice e st a port :
  e ∈ v1.Endpoints slice →
  decisionTable (tableReady e) (tableDraining flags (GetService ctl hostName) e)
    (features.SendUnhealthyEndpoints flags) = Some st →
  a ∈ v1.Addresses e →
  podMissing (resolve ctl hostName slice e a) = false →
  port ∈ v1.Ports slice →
  malformed port →
  model.setHealthStatus st
    (buildIstioEndpoint ctl (resolve ctl hostName slice e a).1 a
       (default 0 (v1.port_Port port)) (default "" (v1.port_Name port))
       (EndpointDiscoverabilityPolicy ctl (GetService ctl hostName)))
  ∈ sliceEndpoints flags ctl hostName slice.
Proof.
  intros He Hst Ha Hmiss Hport _.
  rewrite sliceEndpoints_table. apply list_elem_of_bind. exists e. split; [|done].
  unfold tableEndpoints. rewrite Hst. unfold entryEndpoints.
  apply list_elem_of_bind. exists a. split; [|done].
  rewrite Hmiss. apply list_elem_of_fmap. by exists port.
Qed.

Lemma malformed_port_emitted_witness :
  model.setHealthStatus model.Healthy
    (buildIstioEndpoint exampleController
       (resolve exampleController exampleHost malformedSlice
          (entry "10.0.0.5" (Some true) (Some true)) "10.0.0.5").1
       "10.0.0.5" (default 0 (v1.port_Port barePort)) (default "" (v1.port_Name barePort))
       (EndpointDiscoverabilityPolicy exampleController
          (GetService exampleController exampleHost)))
  ∈ sliceEndpoints exampleFlags exampleController exampleHost malformedSlice.
Proof.
  apply (malformed_port_emitted exampleFlags exampleController exampleHost malformedSlice
           (entry "10.0.0.5" (Some true) (Some true)) model.Healthy "10.0.0.5" barePort).
  - by left.
  - by vm_compute.
  - by left.
  - by vm_compute.
  - by left.
  - by left.
Defined.

(** C8 as stated fails: the one port of the partition declares neither name
    nor number, and the processor emits an endpoint for it all the same. *)
Lemma malformed_port_not_excluded :
  v1.Ports malformedSlice = [barePort] ∧
  v1.port_Name barePort = None ∧ v1.port_Port barePort = None ∧
  sliceEndpoints exampleFlags exampleController exampleHost malformedSlice
  = [ {| model.Address := "10.0.0.5";
         model.ServicePortName := "";
         model.EndpointPort := 0;
         model.Health := model.Healthy;
         model.Workload := Some "10.0.0.5";
         model.DiscoverabilityPolicy := "always" |} ] ∧
  slicesOf exampleHost
    (endpointCache
       (updateEndpointCacheForSlice exampleFlags (controllerWith [] newEndpointSliceCache)
          exampleHost malformedSlice))
    !! "slice-m"
  = Some [ {| model.Address := "10.0.0.5";
              model.ServicePortName := "";
              model.EndpointPort := 0;
              model.Health := model.Healthy;
              model.Workload := Some "10.0.0.5";
              model.DiscoverabilityPolicy := "always" |} ].
Proof. split_and!; by vm_compute. Qed.

Lemma instancesOfSlice_spec esc ctl svc svcPort out slice :
  instancesOfSlice esc ctl svc svcPort (EndpointDiscoverabilityPolicy ctl (Some svc)) out slice
  = out ++
    (instanceOf esc ctl svc svcPort
       <$> filter (fun x => Is_true (qualifiesIP ctl svc svcPort x)) (combinations [slice])).
Proof.
  unfold combinations. rewrite bind_singleton.
  rewrite fmap_filter_bind.
  rewrite (bind_ext_eq _ (fun e => a ← v1.Addresses e; port ← v1.Ports slice;
             instanceOf esc ctl svc svcPort
               <$> filter (fun x => Is_true (qualifiesIP ctl svc svcPort x))
                     [(slice, e, a, port)])).
  2:{ intros e. rewrite fmap_filter_bind. apply bind_ext_eq. intros a.
      by rewrite fmap_filter_bind. }
  unfold instancesOfSlice. case_decide as Hfqdn.
  - rewrite bind_all_nil; [by rewrite app_nil_r|].
    intros e. apply bind_all_nil. intros a. apply bind_all_nil. intros port.
    rewrite instance_of_combination. by rewrite decide_True.
  - apply foldl_append. intros out1 e.
    apply foldl_append. intros out2 a.
    fold (resolve ctl (model.Hostname svc) slice e a).
    destruct (podMissing (resolve ctl (model.Hostname svc) slice e a)) eqn:Hmiss.
    + rewrite bind_all_nil; [by rewrite app_nil_r|].
      intros port. rewrite instance_of_combination, decide_False by done.
      by rewrite Hmiss.
    + apply foldl_append. intros out3 port.
      rewrite instance_of_combination, decide_False by done. rewrite Hmiss.
      destruct (portMatches svcPort port); [done | by rewrite app_nil_r].
Qed.

Lemma combinations_cons slice slices :
  combinations (slice :: slices) = combinations [slice] ++ combinations slices.
Proof. unfold combinations. by rewrite bind_cons, bind_singleton. Qed.

(** C9, as the code has it: the by-port query returns one instance for each
    qualifying combination of a partition that is not of FQDN type, in
    order and with repetitions. *)
Theorem InstancesByPort_combinations esc ctl svc reqSvcPort slices svcPort :
  listSlices esc (model.attr_Namespace (model.Attributes svc))
    (endpointSliceSelectorForService (model.attr_Name (model.Attributes svc))) = Ok slices →
  model.GetByPort (model.svc_Ports svc) reqSvcPort = Some svcPort →
  InstancesByPort esc ctl svc reqSvcPort
  = instanceOf esc ctl svc svcPort
      <$> filter (fun x => Is_true (qualifiesIP ctl svc svcPort x)) (combinations slices).
Proof.
  intros Hlist Hport. unfold InstancesByPort. rewrite Hlist.
  case_decide as Hlen.
  - by destruct slices.
  - rewrite Hport. simpl. clear Hlen Hlist.
    assert (∀ out,
      foldl (instancesOfSlice esc ctl svc svcPort (EndpointDiscoverabilityPolicy ctl (Some svc)))
        out slices
      = out ++ (instanceOf esc ctl svc svcPort
                  <$> filter (fun x => Is_true (qualifiesIP ctl svc svcPort x))
                        (combinations slices))) as Hloop.
    { induction slices as [|slice slices IH]; intros out.
      - by rewrite app_nil_r.
      - cbn [foldl]. rewrite IH, instancesOfSlice_spec, (combinations_cons slice slices).
        rewrite filter_app, fmap_app. symmetry. apply app_assoc. }
    by rewrite Hloop.
Qed.

(** Two partitions that both report 10.0.0.5: it is returned twice. *)
Lemma InstancesByPort_combinations_witness :
  listSlices (controllerWith [exampleSlice; overlapSlice] newEndpointSliceCache) "default"
    (endpointSliceSelectorForService "svc") = Ok [exampleSlice; overlapSlice] ∧
  model.GetByPort (model.svc_Ports exampleService) 80 = Some httpPort ∧
  (model.Address ∘ model.inst_Endpoint)
    <$> InstancesByPort (controllerWith [exampleSlice; overlapSlice] newEndpointSliceCache)
          exampleController exampleService 80
  = ["10.0.0.5"; "10.0.0.6"; "10.0.0.7"; "10.0.0.8"; "10.0.0.5"].
Proof.
  assert (listSlices (controllerWith [exampleSlice; overlapSlice] newEndpointSliceCache)
            (model.attr_Namespace (model.Attributes exampleService))
            (endpointSliceSelectorForService (model.attr_Name (model.Attributes exampleService)))
          = Ok [exampleSlice; overlapSlice]) as Hlist by reflexivity.
  assert (model.GetByPort (model.svc_Ports exampleService) 80 = Some httpPort) as Hport
    by reflexivity.
  split; [exact Hlist|]. split; [exact Hport|].
  rewrite (InstancesByPort_combinations _ exampleController exampleService 80
             [exampleSlice; overlapSlice] httpPort Hlist Hport).
  by vm_compute.
Defined.

(** C9 as stated fails: the one combination of the listed FQDN partition
    resolves its identity and its port is named as the service port, yet
    the query returns no instance. *)
Lemma InstancesByPort_skips_FQDN :
  listSlices (controllerWith [fqdnSlice] newEndpointSliceCache) "default"
    (endpointSliceSelectorForService "svc") = Ok [fqdnSlice] ∧
  model.GetByPort (model.svc_Ports exampleService) 80 = Some httpPort ∧
  filter (fun x => Is_true (qualifies exampleController exampleService httpPort x))
    (combinations [fqdnSlice])
  = [(fqdnSlice, fqdnEntry, "db.example.com", namedPort)] ∧
  InstancesByPort (controllerWith [fqdnSlice] newEndpointSliceCache)
    exampleController exampleService 80 = [].
Proof. split_and!; by vm_compute. Qed.


(** * Further properties of the code *)

(** ** Further properties of the cache *)

Lemma Has_false hostname e :
  Has hostname e = false ↔ endpointsByServiceAndSlice e !! hostname = None.
Proof.
  unfold Has. rewrite bool_decide_eq_false. rewrite <- eq_None_not_Some. done.
Qed.

(** X1: [Get] returns nothing exactly when every recorded slice of the
    service is empty, which covers the service that is not recorded. *)
Theorem Get_empty_iff hostname e out :
  GetAny hostname e out →
  out = [] ↔ ∀ slice eps, slicesOf hostname e !! slice = Some eps → eps = [].
Proof.
  intros (_ & Hsub & Hcov)%GetAny_spec. split.
  - intros -> slice eps Hl. destruct eps as [|ep eps]; [done|].
    specialize (Hcov slice _ ep Hl (list_elem_of_here _ _)).
    by apply elem_of_nil in Hcov.
  - intros Hall. destruct out as [|ep out]; [done|].
    destruct (Hsub ep (list_elem_of_here _ _)) as (slice & eps & Hl & Hep).
    rewrite (Hall _ _ Hl) in Hep. by apply elem_of_nil in Hep.
Qed.

Lemma Get_empty_iff_witness :
  GetAny "unknown" priorCache (Get "unknown" priorCache) ∧
  Has "unknown" priorCache = false ∧
  Get "unknown" priorCache = [].
Proof.
  pose proof (Get_GetAny "unknown" priorCache) as Hget.
  split_and!; [done | by vm_compute |].
  apply (Get_empty_iff _ _ _ Hget). intros slice eps Hl.
  by vm_compute in Hl.
Defined.

Lemma GetAny_slicesOf hostname e1 e2 out :
  slicesOf hostname e1 = slicesOf hostname e2 →
  GetAny hostname e1 out ↔ GetAny hostname e2 out.
Proof. unfold GetAny. by intros ->. Qed.

(** X2: [Update] touches one slice of one service: the other slices of that
    service and every other service keep their entry, their [Has] and their
    [Get]. *)
Theorem Update_frame hostname slice endpoints e :
  (∀ slice', slice' ≠ slice →
     slicesOf hostname (Update hostname slice endpoints e) !! slice'
     = slicesOf hostname e !! slice') ∧
  (∀ hostname', hostname' ≠ hostname →
     endpointsByServiceAndSlice (Update hostname slice endpoints e) !! hostname'
     = endpointsByServiceAndSlice e !! hostname' ∧
     Has hostname' (Update hostname slice endpoints e) = Has hostname' e ∧
     ∀ out, GetAny hostname' (Update hostname slice endpoints e) out
            ↔ GetAny hostname' e out).
Proof.
  split.
  - intros slice' Hne. by rewrite slicesOf_Update, lookup_insert_ne.
  - intros hostname' Hne.
    assert (endpointsByServiceAndSlice (Update hostname slice endpoints e) !! hostname'
            = endpointsByServiceAndSlice e !! hostname') as Hl
      by (by rewrite Update_map, lookup_insert_ne).
    split_and!; [done | by unfold Has; rewrite Hl |].
    intros out. apply GetAny_slicesOf. unfold slicesOf. by rewrite Hl.
Qed.

(** X3: updates of different slices, or of different services, commute. *)
Theorem Update_commute hostname1 slice1 endpoints1 hostname2 slice2 endpoints2 e :
  hostname1 ≠ hostname2 ∨ slice1 ≠ slice2 →
  Update hostname1 slice1 endpoints1 (Update hostname2 slice2 endpoints2 e)
  = Update hostname2 slice2 endpoints2 (Update hostname1 slice1 endpoints1 e).
Proof.
  intros Hne. apply cache_eq. rewrite !Update_map.
  destruct (decide (hostname1 = hostname2)) as [->|Hh].
  - destruct Hne as [?|Hs]; [done|].
    rewrite !slicesOf_Update, !insert_insert_eq. f_equal.
    by apply insert_insert_ne.
  - rewrite !slicesOf_Update_ne by done. by apply insert_insert_ne.
Qed.

Lemma Update_commute_witness :
  (exampleHost ≠ exampleHost ∨ "slice-a" ≠ "slice-b") ∧
  Update exampleHost "slice-a" [endpointAt "10.0.0.5" model.Healthy]
    (Update exampleHost "slice-b" [endpointAt "10.0.0.5" model.Draining]
       newEndpointSliceCache)
  = overlapCache.
Proof.
  assert (exampleHost ≠ exampleHost ∨ "slice-a" ≠ "slice-b") as Hne by (by right).
  split; [exact Hne|].
  exact (Update_commute exampleHost "slice-a" _ exampleHost "slice-b" _ _ Hne).
Defined.

(** The invariant of the reachable caches, for use in later proofs. *)
Lemma reachable_nonempty e hostname slices :
  reachable e → endpointsByServiceAndSlice e !! hostname = Some slices → slices ≠ ∅.
Proof.
  intros Hreach. revert hostname slices.
  induction Hreach as [|h s eps e _ IH|h s e _ IH]; intros hostname slices.
  - simpl. by rewrite lookup_empty.
  - rewrite Update_map. destruct (decide (hostname = h)) as [->|Hne].
    + rewrite lookup_insert_eq. intros [= <-]. apply insert_non_empty.
    + rewrite lookup_insert_ne by done. apply IH.
  - rewrite Delete_map. case_decide as Hem.
    + destruct (decide (hostname = h)) as [->|Hne].
      * by rewrite lookup_delete_eq.
      * rewrite lookup_delete_ne by done. apply IH.
    + destruct (decide (hostname = h)) as [->|Hne].
      * rewrite lookup_insert_eq. by intros [= <-].
      * rewrite lookup_insert_ne by done. apply IH.
Qed.

Lemma Delete_absent hostname slice e :
  (∀ slices, endpointsByServiceAndSlice e !! hostname = Some slices → slices ≠ ∅) →
  slicesOf hostname e !! slice = None →
  Delete hostname slice e = e.
Proof.
  intros Hinv Habs. apply cache_eq. rewrite Delete_map.
  rewrite delete_id by done. unfold slicesOf in *.
  destruct (endpointsByServiceAndSlice e !! hostname) as [slices|] eqn:Hm; simpl.
  - rewrite decide_False by (by apply Hinv). by apply insert_id.
  - rewrite decide_True by done. by apply delete_id.
Qed.

(** X4: [Delete] undoes [Update].  Removing a slice after updating it is
    removing it from the cache as it was; on a cache built by [Update] and
    [Delete] in which the slice was not recorded, this gives the cache back. *)
Theorem Delete_Update hostname slice endpoints e :
  Delete hostname slice (Update hostname slice endpoints e) = Delete hostname slice e ∧
  (reachable e → slicesOf hostname e !! slice = None →
   Delete hostname slice (Update hostname slice endpoints e) = e).
Proof.
  assert (Delete hostname slice (Update hostname slice endpoints e)
          = Delete hostname slice e) as Heq.
  { apply cache_eq. rewrite !Delete_map, slicesOf_Update, Update_map, delete_insert_eq.
    case_decide; [by rewrite delete_insert_eq | by rewrite insert_insert_eq]. }
  split; [done|]. intros Hreach Habs. rewrite Heq.
  apply Delete_absent; [|done].
  intros slices. by apply reachable_nonempty.
Qed.

Lemma Delete_Update_witness :
  reachable priorCache ∧
  slicesOf exampleHost priorCache !! "slice-b" = None ∧
  Delete exampleHost "slice-b" overlapCache = priorCache.
Proof.
  assert (reachable priorCache) as Hreach by apply reach_update, reach_new.
  assert (slicesOf exampleHost priorCache !! "slice-b" = None) as Habs by (by vm_compute).
  split_and!; [done | done |].
  exact (proj2 (Delete_Update exampleHost "slice-b"
                  [endpointAt "10.0.0.5" model.Draining] priorCache) Hreach Habs).
Defined.

(** X5: [Update] overrides a removal, and removing twice is removing once. *)
Theorem Update_Delete hostname slice endpoints e :
  Update hostname slice endpoints (Delete hostname slice e)
  = Update hostname slice endpoints e ∧
  Delete hostname slice (Delete hostname slice e) = Delete hostname slice e.
Proof.
  split; apply cache_eq.
  - rewrite !Update_map, slicesOf_Delete, insert_delete_eq, Delete_map.
    case_decide; [by rewrite insert_delete_eq | by rewrite insert_insert_eq].
  - rewrite (Delete_map _ _ (Delete _ _ _)), slicesOf_Delete, delete_delete_eq.
    rewrite (Delete_map _ _ e).
    case_decide as Hem.
    + by rewrite delete_delete_eq.
    + by rewrite insert_insert_eq.
Qed.

(** ** Further properties of [Get] *)

Lemma elem_of_GetAny_keys hostname e out k :
  GetAny hostname e out →
  k ∈ keyOf <$> out ↔
  ∃ slice eps ep, slicesOf hostname e !! slice = Some eps ∧ ep ∈ eps ∧ keyOf ep = k.
Proof.
  intros (_ & Hsub & Hcov)%GetAny_spec. split.
  - intros (ep & -> & (slice & eps & Hl & Hep)%Hsub)%list_elem_of_fmap.
    by exists slice, eps, ep.
  - intros (slice & eps & ep & Hl & Hep & <-). by eapply Hcov.
Qed.

(** X6: the order of iteration decides which endpoint stands for a key,
    not which keys are returned: any two results of [Get] carry the same
    keys, each once, and so have the same length. *)
Theorem Get_keys_any_order hostname e out1 out2 :
  GetAny hostname e out1 → GetAny hostname e out2 →
  keyOf <$> out1 ≡ₚ keyOf <$> out2 ∧ length out1 = length out2.
Proof.
  intros Hget1 Hget2.
  assert (keyOf <$> out1 ≡ₚ keyOf <$> out2) as Hperm.
  { apply NoDup_Permutation.
    - by apply GetAny_spec in Hget1 as (? & _).
    - by apply GetAny_spec in Hget2 as (? & _).
    - intros k. by rewrite !elem_of_GetAny_keys. }
  split; [done|]. apply Permutation_length in Hperm. by rewrite !length_fmap in Hperm.
Qed.

Lemma firstByKey_NoDup l : ∀ found,
  NoDup (keyOf <$> l) → (∀ ep, ep ∈ l → keyOf ep ∉ found) → firstByKey found l = l.
Proof.
  induction l as [|x l IH]; intros found; [done|].
  rewrite fmap_cons. intros [Hx Hnd]%NoDup_cons Hfound. simpl.
  rewrite decide_False by (apply Hfound; by left).
  f_equal. apply IH; [done|]. intros ep Hep.
  intros [Heq%elem_of_singleton|Hin]%elem_of_union.
  - apply Hx. rewrite <- Heq. apply list_elem_of_fmap. eauto.
  - by apply (Hfound ep); [right|].
Qed.

(** X7: when no two endpoints of the service's slices share a key, nothing
    is dropped: every result of [Get] is the endpoints of all the slices,
    up to order. *)
Theorem Get_without_collision hostname e out :
  NoDup (keyOf <$> (map_to_list (slicesOf hostname e) ≫= snd)) →
  GetAny hostname e out →
  out ≡ₚ map_to_list (slicesOf hostname e) ≫= snd.
Proof.
  intros Hnd (order & Hperm & ->). rewrite getIn_firstByKey.
  rewrite firstByKey_NoDup.
  - by rewrite Hperm.
  - by rewrite Hperm.
  - intros ep _. apply not_elem_of_empty.
Qed.

Lemma Get_keys_any_order_witness :
  GetAny exampleHost overlapCache [endpointAt "10.0.0.5" model.Healthy] ∧
  GetAny exampleHost overlapCache [endpointAt "10.0.0.5" model.Draining] ∧
  keyOf <$> [endpointAt "10.0.0.5" model.Healthy]
  ≡ₚ keyOf <$> [endpointAt "10.0.0.5" model.Draining].
Proof.
  assert (GetAny exampleHost overlapCache [endpointAt "10.0.0.5" model.Healthy]) as H1.
  { exists (map_to_list (slicesOf exampleHost overlapCache)).
    split; [done | by vm_compute]. }
  assert (GetAny exampleHost overlapCache [endpointAt "10.0.0.5" model.Draining]) as H2.
  { exists (reverse (map_to_list (slicesOf exampleHost overlapCache))).
    split; [apply reverse_Permutation | by vm_compute]. }
  split_and!; [done | done |].
  exact (proj1 (Get_keys_any_order _ _ _ _ H1 H2)).
Defined.

Lemma Get_without_collision_witness :
  NoDup (keyOf <$> (map_to_list
           (slicesOf exampleHost
              (Update exampleHost "slice-b" [endpointAt "10.0.0.6" model.Healthy] priorCache))
           ≫= snd)) ∧
  Get exampleHost
    (Update exampleHost "slice-b" [endpointAt "10.0.0.6" model.Healthy] priorCache)
  ≡ₚ [endpointAt "10.0.0.5" model.Healthy; endpointAt "10.0.0.6" model.Healthy].
Proof.
  assert (NoDup (keyOf <$> (map_to_list
           (slicesOf exampleHost
              (Update exampleHost "slice-b" [endpointAt "10.0.0.6" model.Healthy] priorCache))
           ≫= snd))) as Hnd.
  { apply (bool_decide_unpack _). by vm_compute. }
  split; [done|].
  etrans; [exact (Get_without_collision _ _ _ Hnd (Get_GetAny _ _))|].
  by vm_compute.
Defined.

Lemma firstByKey_first ep l2 l1 : ∀ found,
  keyOf ep ∉ found → keyOf ep ∉ keyOf <$> l1 → ep ∈ firstByKey found (l1 ++ ep :: l2).
Proof.
  induction l1 as [|x l1 IH]; intros found Hfound Hl1; simpl.
  - rewrite decide_False by done. by left.
  - rewrite fmap_cons in Hl1. apply not_elem_of_cons in Hl1 as [Hne Hl1].
    case_decide as Hx; [by apply IH|].
    right. apply IH; [|done].
    intros [Heq%elem_of_singleton|Hin]%elem_of_union; contradiction.
Qed.

Lemma NoDup_order hostname e order :
  order ≡ₚ map_to_list (slicesOf hostname e) → NoDup order.
Proof. intros ->. apply NoDup_map_to_list. Qed.

(** X8: inside one slice the tie-break is fixed.  When a key is held by one
    slice only, the first endpoint of that slice's list that carries the key
    is in every result of [Get], whatever the order of iteration. *)
Theorem Get_first_in_slice hostname e slice l1 ep l2 out :
  slicesOf hostname e !! slice = Some (l1 ++ ep :: l2) →
  keyOf ep ∉ keyOf <$> l1 →
  (∀ slice' eps' ep', slice' ≠ slice → slicesOf hostname e !! slice' = Some eps' →
     ep' ∈ eps' → keyOf ep' ≠ keyOf ep) →
  GetAny hostname e out →
  ep ∈ out.
Proof.
  intros Hl Hfirst Hothers (order & Hperm & ->). rewrite getIn_firstByKey.
  assert ((slice, l1 ++ ep :: l2) ∈ order) as Hin by (by eapply elem_of_order).
  apply list_elem_of_split in Hin as (pre & post & ->).
  rewrite bind_app, bind_cons. simpl. rewrite <- !app_assoc, app_assoc. simpl.
  apply firstByKey_first; [apply not_elem_of_empty|].
  rewrite fmap_app, elem_of_app. intros [Hpre|Hin]; [|done].
  apply list_elem_of_fmap in Hpre as (ep' & Hkey & Hep').
  apply list_elem_of_bind in Hep' as ([slice' eps'] & Hep' & Hin'). simpl in Hep'.
  assert (slicesOf hostname e !! slice' = Some eps') as Hl'.
  { eapply elem_of_order; [done|]. apply elem_of_app. by left. }
  apply (Hothers slice' eps' ep'); [|done|done|done].
  intros ->. rewrite Hl in Hl'. injection Hl' as <-.
  apply NoDup_order in Hperm. apply NoDup_app in Hperm as (_ & Hdisj & _).
  apply (Hdisj _ Hin'). by left.
Qed.

Lemma Get_first_in_slice_witness :
  slicesOf exampleHost
    (Update exampleHost "slice-a"
       [endpointAt "10.0.0.5" model.Healthy; endpointAt "10.0.0.5" model.Draining]
       newEndpointSliceCache) !! "slice-a"
  = Some ([] ++ endpointAt "10.0.0.5" model.Healthy :: [endpointAt "10.0.0.5" model.Draining]) ∧
  endpointAt "10.0.0.5" model.Healthy
  ∈ Get exampleHost
      (Update exampleHost "slice-a"
         [endpointAt "10.0.0.5" model.Healthy; endpointAt "10.0.0.5" model.Draining]
         newEndpointSliceCache).
Proof.
  split; [by rewrite slicesOf_Update, lookup_insert_eq|].
  apply (Get_first_in_slice exampleHost
           (Update exampleHost "slice-a"
              [endpointAt "10.0.0.5" model.Healthy; endpointAt "10.0.0.5" model.Draining]
              newEndpointSliceCache)
           "slice-a" [] _ [endpointAt "10.0.0.5" model.Draining]).
  - by rewrite slicesOf_Update, lookup_insert_eq.
  - apply not_elem_of_nil.
  - intros slice' eps' ep' Hne Hl. rewrite slicesOf_Update, lookup_insert_ne in Hl by done.
    unfold slicesOf in Hl. simpl in Hl. by rewrite lookup_empty in Hl.
  - apply Get_GetAny.
Defined.

(** X9: across slices the tie-break is the order of iteration.  For every
    slice, the first endpoint of its list that carries a key is returned by
    some order, so two slices that hold one key can each win. *)
Theorem Get_any_slice_can_win hostname e slice l1 ep l2 :
  slicesOf hostname e !! slice = Some (l1 ++ ep :: l2) →
  keyOf ep ∉ keyOf <$> l1 →
  ∃ out, GetAny hostname e out ∧ ep ∈ out.
Proof.
  intros Hl Hfirst.
  apply elem_of_map_to_list in Hl. apply elem_of_Permutation in Hl as (rest & Hperm).
  exists (getIn ((slice, l1 ++ ep :: l2) :: rest)). split.
  - by exists ((slice, l1 ++ ep :: l2) :: rest).
  - rewrite getIn_firstByKey, bind_cons. simpl. rewrite <- app_assoc. simpl.
    apply firstByKey_first; [apply not_elem_of_empty | done].
Qed.

Lemma Get_any_slice_can_win_witness :
  slicesOf exampleHost overlapCache !! "slice-b"
  = Some ([] ++ endpointAt "10.0.0.5" model.Draining :: []) ∧
  (keyOf (endpointAt "10.0.0.5" model.Draining) ∉ keyOf <$> []) ∧
  Get exampleHost overlapCache = [endpointAt "10.0.0.5" model.Healthy] ∧
  ∃ out, GetAny exampleHost overlapCache out ∧ endpointAt "10.0.0.5" model.Draining ∈ out.
Proof.
  assert (slicesOf exampleHost overlapCache !! "slice-b"
          = Some ([] ++ endpointAt "10.0.0.5" model.Draining :: [])) as Hl by (by vm_compute).
  assert (keyOf (endpointAt "10.0.0.5" model.Draining) ∉ keyOf <$> []) as Hfirst
    by apply not_elem_of_nil.
  split_and!; [done | done | by vm_compute |].
  exact (Get_any_slice_can_win _ _ _ _ _ _ Hl Hfirst).
Defined.

(** ** Further properties of the slice processor *)

Lemma esc_eq esc1 esc2 :
  c esc1 = c esc2 → listSlices esc1 = listSlices esc2 →
  endpointCache esc1 = endpointCache esc2 → esc1 = esc2.
Proof. destruct esc1, esc2. simpl. by intros -> -> ->. Qed.

Lemma processed_c flags esc hostName slice :
  c (updateEndpointCacheForSlice flags esc hostName slice) = c esc ∧
  listSlices (updateEndpointCacheForSlice flags esc hostName slice) = listSlices esc.
Proof. unfold updateEndpointCacheForSlice. by case_decide. Qed.

Lemma processed_cache_FQDN flags esc hostName slice :
  v1.slice_AddressType slice = v1.AddressTypeFQDN →
  updateEndpointCacheForSlice flags esc hostName slice = esc.
Proof. intros Hfqdn. unfold updateEndpointCacheForSlice. by rewrite decide_True. Qed.

(** X10: the processor changes one slice of one service and nothing else:
    the controller and the lister stay, the other slices of the service and
    the other services keep their entries.  After a payload that is not of
    FQDN type the service is recorded, whether or not an endpoint came out. *)
Theorem processor_frame flags esc hostName slice :
  c (updateEndpointCacheForSlice flags esc hostName slice) = c esc ∧
  listSlices (updateEndpointCacheForSlice flags esc hostName slice) = listSlices esc ∧
  (∀ slice', slice' ≠ v1.slice_Name slice →
     slicesOf hostName (endpointCache (updateEndpointCacheForSlice flags esc hostName slice))
       !! slice'
     = slicesOf hostName (endpointCache esc) !! slice') ∧
  (∀ hostName', hostName' ≠ hostName →
     endpointsByServiceAndSlice
       (endpointCache (updateEndpointCacheForSlice flags esc hostName slice)) !! hostName'
     = endpointsByServiceAndSlice (endpointCache esc) !! hostName') ∧
  (v1.slice_AddressType slice ≠ v1.AddressTypeFQDN →
   Has hostName (endpointCache (updateEndpointCacheForSlice flags esc hostName slice)) = true).
Proof.
  destruct (processed_c flags esc hostName slice) as [Hc Hl].
  split_and!; [done | done | | |].
  - intros slice' Hne.
    destruct (decide (v1.slice_AddressType slice = v1.AddressTypeFQDN)) as [Hfqdn|Hip].
    + by rewrite processed_cache_FQDN.
    + by rewrite processed_cache, slicesOf_Update, lookup_insert_ne.
  - intros hostName' Hne.
    destruct (decide (v1.slice_AddressType slice = v1.AddressTypeFQDN)) as [Hfqdn|Hip].
    + by rewrite processed_cache_FQDN.
    + by rewrite processed_cache, Update_map, lookup_insert_ne.
  - intros Hip. rewrite processed_cache by done.
    apply Has_true. rewrite Update_map, lookup_insert_eq. eauto.
Qed.

(** A partition without ports: no endpoint, and the service is recorded. *)
Lemma processor_frame_witness :
  v1.slice_AddressType (sliceOf "slice-a" v1.AddressTypeIPv4
                          [entry "10.0.0.5" (Some true) (Some true)] [])
  ≠ v1.AddressTypeFQDN ∧
  Has exampleHost (endpointCache (controllerWith [] newEndpointSliceCache)) = false ∧
  Has exampleHost
    (endpointCache
       (updateEndpointCacheForSlice exampleFlags (controllerWith [] newEndpointSliceCache)
          exampleHost
          (sliceOf "slice-a" v1.AddressTypeIPv4
             [entry "10.0.0.5" (Some true) (Some true)] []))) = true ∧
  Get exampleHost
    (endpointCache
       (updateEndpointCacheForSlice exampleFlags (controllerWith [] newEndpointSliceCache)
          exampleHost
          (sliceOf "slice-a" v1.AddressTypeIPv4
             [entry "10.0.0.5" (Some true) (Some true)] []))) = [].
Proof.
  assert (v1.slice_AddressType (sliceOf "slice-a" v1.AddressTypeIPv4
                                  [entry "10.0.0.5" (Some true) (Some true)] [])
          ≠ v1.AddressTypeFQDN) as Hip by done.
  split_and!; [done | by vm_compute | | by vm_compute].
  destruct (processor_frame exampleFlags (controllerWith [] newEndpointSliceCache)
              exampleHost
              (sliceOf "slice-a" v1.AddressTypeIPv4
                 [entry "10.0.0.5" (Some true) (Some true)] []))
    as (_ & _ & _ & _ & HHas).
  exact (HHas Hip).
Defined.

Lemma Update_twice hostname slice endpoints1 endpoints2 e :
  Update hostname slice endpoints2 (Update hostname slice endpoints1 e)
  = Update hostname slice endpoints2 e.
Proof.
  apply cache_eq. rewrite !Update_map, slicesOf_Update. by rewrite !insert_insert_eq.
Qed.

Lemma Update_swap hostname1 slice1 endpoints1 hostname2 slice2 endpoints2 e :
  hostname1 ≠ hostname2 ∨ slice1 ≠ slice2 →
  Update hostname1 slice1 endpoints1 (Update hostname2 slice2 endpoints2 e)
  = Update hostname2 slice2 endpoints2 (Update hostname1 slice1 endpoints1 e).
Proof.
  intros Hne. apply cache_eq. rewrite !Update_map.
  destruct (decide (hostname1 = hostname2)) as [->|Hh].
  - destruct Hne as [?|Hs]; [done|].
    rewrite !slicesOf_Update, !insert_insert_eq. f_equal.
    by apply insert_insert_ne.
  - rewrite !slicesOf_Update_ne by done. by apply insert_insert_ne.
Qed.

(** X11: delivering payloads again or in another order.  Processing the
    same payload twice is processing it once, the later of two payloads of
    one slice stands, and payloads of different slices or services commute. *)
Theorem processor_replay flags esc hostName1 slice1 hostName2 slice2 :
  updateEndpointCacheForSlice flags
    (updateEndpointCacheForSlice flags esc hostName1 slice1) hostName1 slice1
  = updateEndpointCacheForSlice flags esc hostName1 slice1 ∧
  (v1.slice_Name slice1 = v1.slice_Name slice2 →
   v1.slice_AddressType slice2 ≠ v1.AddressTypeFQDN →
   updateEndpointCacheForSlice flags
     (updateEndpointCacheForSlice flags esc hostName1 slice1) hostName1 slice2
   = updateEndpointCacheForSlice flags esc hostName1 slice2) ∧
  (hostName1 ≠ hostName2 ∨ v1.slice_Name slice1 ≠ v1.slice_Name slice2 →
   updateEndpointCacheForSlice flags
     (updateEndpointCacheForSlice flags esc hostName1 slice1) hostName2 slice2
   = updateEndpointCacheForSlice flags
       (updateEndpointCacheForSlice flags esc hostName2 slice2) hostName1 slice1).
Proof.
  split_and!.
  - destruct (decide (v1.slice_AddressType slice1 = v1.AddressTypeFQDN)) as [Hfqdn|Hip].
    + by rewrite !processed_cache_FQDN.
    + apply esc_eq.
      * by rewrite !(proj1 (processed_c _ _ _ _)).
      * by rewrite !(proj2 (processed_c _ _ _ _)).
      * rewrite processed_cache by done. rewrite (proj1 (processed_c _ _ _ _)).
        rewrite processed_cache by done. apply Update_twice.
  - intros Hname Hip2. apply esc_eq.
    + by rewrite !(proj1 (processed_c _ _ _ _)).
    + by rewrite !(proj2 (processed_c _ _ _ _)).
    + rewrite !(processed_cache _ _ _ slice2) by done.
      rewrite (proj1 (processed_c _ _ _ _)).
      destruct (decide (v1.slice_AddressType slice1 = v1.AddressTypeFQDN)) as [Hfqdn|Hip].
      * by rewrite processed_cache_FQDN.
      * rewrite processed_cache by done. rewrite <- Hname. apply Update_twice.
  - intros Hne. apply esc_eq.
    + by rewrite !(proj1 (processed_c _ _ _ _)).
    + by rewrite !(proj2 (processed_c _ _ _ _)).
    + destruct (decide (v1.slice_AddressType slice1 = v1.AddressTypeFQDN)) as [Hf1|Hip1];
        destruct (decide (v1.slice_AddressType slice2 = v1.AddressTypeFQDN)) as [Hf2|Hip2].
      * by rewrite !processed_cache_FQDN.
      * by rewrite !(processed_cache_FQDN _ _ _ slice1).
      * by rewrite !(processed_cache_FQDN _ _ _ slice2).
      * rewrite !processed_cache by done. rewrite !(proj1 (processed_c _ _ _ _)).
        apply Update_swap. destruct Hne as [?|?]; [left | right]; congruence.
Qed.

Lemma processor_replay_witness :
  v1.slice_Name exampleSlice = v1.slice_Name downSlice ∧
  v1.slice_AddressType downSlice ≠ v1.AddressTypeFQDN ∧
  updateEndpointCacheForSlice exampleFlags
    (updateEndpointCacheForSlice exampleFlags (controllerWith [] newEndpointSliceCache)
       exampleHost exampleSlice)
    exampleHost downSlice
  = updateEndpointCacheForSlice exampleFlags (controllerWith [] newEndpointSliceCache)
      exampleHost downSlice.
Proof.
  assert (v1.slice_Name exampleSlice = v1.slice_Name downSlice) as Hname by done.
  assert (v1.slice_AddressType downSlice ≠ v1.AddressTypeFQDN) as Hip by done.
  split_and!; [done | done |].
  exact (proj1 (proj2 (processor_replay exampleFlags
                         (controllerWith [] newEndpointSliceCache)
                         exampleHost exampleSlice exampleHost downSlice)) Hname Hip).
Defined.





(** X13: one endpoint for each surviving address and each declared port.
    The number of endpoints of a partition is the number of its ports times
    the number of addresses of included entries whose identity is not
    missing; a partition without ports yields none. *)
Theorem emitted_count flags ctl hostName slice :
  length (sliceEndpoints flags ctl hostName slice)
  = (length
       (e ← v1.Endpoints slice;
        match decisionTable (tableReady e) (tableDraining flags (GetService ctl hostName) e)
                (features.SendUnhealthyEndpoints flags) with
        | Some _ =>
            filter (fun a => podMissing (resolve ctl hostName slice e a) = false)
              (v1.Addresses e)
        | None => []
        end)
     * length (v1.Ports slice))%nat.
Proof.
  rewrite sliceEndpoints_table.
  induction (v1.Endpoints slice) as [|e es IH]; [done|].
  rewrite !bind_cons, !length_app, IH, Nat.mul_add_distr_r. f_equal.
  unfold tableEndpoints. destruct (decisionTable _ _ _) as [st|]; [|done].
  unfold entryEndpoints.
  induction (v1.Addresses e) as [|a addrs IHa]; [done|].
  rewrite bind_cons, length_app, IHa, filter_cons.
  destruct (podMissing _) eqn:Hmiss.
  - by rewrite decide_False.
  - rewrite decide_True by done. simpl. by rewrite length_fmap.
Qed.


(** ** Rebuilding the cache from a listing *)

Lemma rebuild_c flags hostName slices : ∀ esc,
  c (foldl (fun esc slice => updateEndpointCacheForSlice flags esc hostName slice) esc slices)
  = c esc ∧
  listSlices
    (foldl (fun esc slice => updateEndpointCacheForSlice flags esc hostName slice) esc slices)
  = listSlices esc.
Proof.
  induction slices as [|sl slices IH]; intros esc; [done|]. simpl.
  destruct (IH (updateEndpointCacheForSlice flags esc hostName sl)) as [-> ->].
  apply processed_c.
Qed.

Lemma rebuild_other_host flags hostName hostName' slices : ∀ esc,
  hostName' ≠ hostName →
  endpointsByServiceAndSlice
    (endpointCache
       (foldl (fun esc slice => updateEndpointCacheForSlice flags esc hostName slice)
          esc slices)) !! hostName'
  = endpointsByServiceAndSlice (endpointCache esc) !! hostName'.
Proof.
  induction slices as [|sl slices IH]; intros esc Hne; [done|]. simpl.
  rewrite IH by done.
  destruct (decide (v1.slice_AddressType sl = v1.AddressTypeFQDN)) as [Hfqdn|Hip].
  - by rewrite processed_cache_FQDN.
  - by rewrite processed_cache, Update_map, lookup_insert_ne.
Qed.

Lemma rebuild_unlisted flags hostName s slices : ∀ esc,
  (∀ sl, sl ∈ slices → v1.slice_AddressType sl ≠ v1.AddressTypeFQDN → v1.slice_Name sl ≠ s) →
  slicesOf hostName
    (endpointCache
       (foldl (fun esc slice => updateEndpointCacheForSlice flags esc hostName slice)
          esc slices)) !! s
  = slicesOf hostName (endpointCache esc) !! s.
Proof.
  induction slices as [|sl slices IH]; intros esc Hnot; [done|]. simpl.
  rewrite IH by (intros sl' Hin; apply Hnot; by right).
  destruct (decide (v1.slice_AddressType sl = v1.AddressTypeFQDN)) as [Hfqdn|Hip].
  - by rewrite processed_cache_FQDN.
  - rewrite processed_cache, slicesOf_Update, lookup_insert_ne; [done| |done].
    apply Hnot; [by left | done].
Qed.

(** X15: rebuilding never evicts.  [buildIstioEndpointsWithService] leaves
    the controller, the other services and every slice that no listed
    non-FQDN partition names as they were, so a slice the listing no longer
    holds stays cached; without [updateCache], on a failed listing and on an
    empty one it writes nothing at all, and in the last two cases it returns
    nothing whatever the cache holds. *)
Theorem rebuild_keeps_unlisted flags esc name namespace hostName updateCache :
  c (buildIstioEndpointsWithService flags esc name namespace hostName updateCache).1 = c esc ∧
  (∀ hostName', hostName' ≠ hostName →
     endpointsByServiceAndSlice
       (endpointCache
          (buildIstioEndpointsWithService flags esc name namespace hostName updateCache).1)
       !! hostName'
     = endpointsByServiceAndSlice (endpointCache esc) !! hostName') ∧
  (∀ s,
     (∀ slices sl, listSlices esc namespace (endpointSliceSelectorForService name) = Ok slices →
        sl ∈ slices → v1.slice_AddressType sl ≠ v1.AddressTypeFQDN → v1.slice_Name sl ≠ s) →
     slicesOf hostName
       (endpointCache
          (buildIstioEndpointsWithService flags esc name namespace hostName updateCache).1)
       !! s
     = slicesOf hostName (endpointCache esc) !! s) ∧
  (updateCache = false →
   (buildIstioEndpointsWithService flags esc name namespace hostName updateCache).1 = esc) ∧
  ((∃ msg, listSlices esc namespace (endpointSliceSelectorForService name) = Err msg) ∨
   listSlices esc namespace (endpointSliceSelectorForService name) = Ok [] →
   buildIstioEndpointsWithService flags esc name namespace hostName updateCache = (esc, [])).
Proof.
  unfold buildIstioEndpointsWithService.
  destruct (listSlices esc namespace (endpointSliceSelectorForService name))
    as [slices|msg] eqn:Hlist.
  - case_decide as Hlen.
    + destruct slices; [|done]. split_and!; done.
    + destruct updateCache; simpl.
      * split_and!.
        -- apply rebuild_c.
        -- intros hostName' Hne. by apply rebuild_other_host.
        -- intros s Hnot. apply rebuild_unlisted. intros sl. by apply Hnot.
        -- done.
        -- intros [[msg [=]]|[= ->]]. done.
      * split_and!; try done. intros [[msg [=]]|[= ->]]. done.
  - split_and!; done.
Qed.

(** A slice that the listing no longer holds is still returned. *)
Lemma rebuild_keeps_unlisted_witness :
  slicesOf exampleHost (endpointCache (controllerWith [overlapSlice] priorCache)) !! "slice-a"
  = Some [endpointAt "10.0.0.5" model.Healthy] ∧
  slicesOf exampleHost
    (endpointCache
       (buildIstioEndpointsWithService exampleFlags (controllerWith [overlapSlice] priorCache)
          "svc" "default" exampleHost true).1) !! "slice-a"
  = Some [endpointAt "10.0.0.5" model.Healthy].
Proof.
  assert (slicesOf exampleHost (endpointCache (controllerWith [overlapSlice] priorCache))
            !! "slice-a" = Some [endpointAt "10.0.0.5" model.Healthy]) as Hprior
    by (by vm_compute).
  split; [done|].
  destruct (rebuild_keeps_unlisted exampleFlags (controllerWith [overlapSlice] priorCache)
              "svc" "default" exampleHost true) as (_ & _ & Hkeep & _).
  rewrite Hkeep; [done|].
  intros slices sl [= <-] Hin _. apply list_elem_of_singleton in Hin as ->. done.
Defined.

(** X16: rebuilding records the listing.  With [updateCache], every listed
    partition that is not of FQDN type and is not followed in the listing by
    another one of its name ends up recorded with its computed endpoints,
    and their keys are in the returned view. *)
Theorem rebuild_records_listed flags esc name namespace hostName pre sl post :
  listSlices esc namespace (endpointSliceSelectorForService name) = Ok (pre ++ sl :: post) →
  v1.slice_AddressType sl ≠ v1.AddressTypeFQDN →
  (∀ sl', sl' ∈ post → v1.slice_AddressType sl' ≠ v1.AddressTypeFQDN →
     v1.slice_Name sl' ≠ v1.slice_Name sl) →
  slicesOf hostName
    (endpointCache
       (buildIstioEndpointsWithService flags esc name namespace hostName true).1)
    !! v1.slice_Name sl
  = Some (sliceEndpoints flags (c esc) hostName sl) ∧
  ∀ ep, ep ∈ sliceEndpoints flags (c esc) hostName sl →
    keyOf ep
    ∈ keyOf <$> (buildIstioEndpointsWithService flags esc name namespace hostName true).2.
Proof.
  intros Hlist Hip Hpost. unfold buildIstioEndpointsWithService. rewrite Hlist.
  rewrite decide_False by (rewrite length_app; simpl; lia). simpl.
  assert (slicesOf hostName
            (endpointCache
               (foldl (fun esc slice => updateEndpointCacheForSlice flags esc hostName slice)
                  esc (pre ++ sl :: post))) !! v1.slice_Name sl
          = Some (sliceEndpoints flags (c esc) hostName sl)) as Hrec.
  { rewrite foldl_app. simpl. rewrite rebuild_unlisted by done.
    rewrite processed_cache by done.
    by rewrite slicesOf_Update, lookup_insert_eq, (proj1 (rebuild_c _ _ _ _)). }
  split; [done|]. intros ep Hep.
  destruct (GetAny_spec _ _ _ (Get_GetAny hostName
              (endpointCache
                 (foldl (fun esc slice => updateEndpointCacheForSlice flags esc hostName slice)
                    esc (pre ++ sl :: post))))) as (_ & _ & Hcov).
  by eapply Hcov.
Qed.

Lemma rebuild_records_listed_witness :
  listSlices (controllerWith [exampleSlice; downSlice; overlapSlice] newEndpointSliceCache)
    "default" (endpointSliceSelectorForService "svc")
  = Ok ([exampleSlice] ++ downSlice :: [overlapSlice]) ∧
  slicesOf exampleHost
    (endpointCache
       (buildIstioEndpointsWithService exampleFlags
          (controllerWith [exampleSlice; downSlice; overlapSlice] newEndpointSliceCache)
          "svc" "default" exampleHost true).1)
    !! "slice-a"
  = Some [].
Proof.
  assert (listSlices
            (controllerWith [exampleSlice; downSlice; overlapSlice] newEndpointSliceCache)
            "default" (endpointSliceSelectorForService "svc")
          = Ok ([exampleSlice] ++ downSlice :: [overlapSlice])) as Hlist by done.
  split; [done|].
  destruct (rebuild_records_listed exampleFlags
              (controllerWith [exampleSlice; downSlice; overlapSlice] newEndpointSliceCache)
              "svc" "default" exampleHost [exampleSlice] downSlice [overlapSlice] Hlist)
    as [Hrec _].
  - done.
  - intros sl' Hin _. apply list_elem_of_singleton in Hin as ->. done.
  - etrans; [exact Hrec|]. by vm_compute.
Defined.

(** ** Forgetting a partition *)

Lemma Delete_unknown hostname slice e :
  Has hostname e = false → Delete hostname slice e = e.
Proof.
  intros Hno%Has_false. apply cache_eq. rewrite Delete_map. unfold slicesOf.
  rewrite Hno. simpl. rewrite delete_empty, decide_True by done. by apply delete_id.
Qed.

Lemma lookup_Delete_ne hostname hostname' slice e :
  hostname' ≠ hostname →
  endpointsByServiceAndSlice (Delete hostname slice e) !! hostname'
  = endpointsByServiceAndSlice e !! hostname'.
Proof.
  intros Hne. rewrite Delete_map.
  case_decide; [by rewrite lookup_delete_ne | by rewrite lookup_insert_ne].
Qed.

Lemma forgetStep_cache slice st hostName :
  (forgetStep slice st hostName).1 = Delete hostName (v1.slice_Name slice) st.1.
Proof.
  unfold forgetStep. destruct (Has hostName st.1) eqn:HHas; [done|].
  by rewrite Delete_unknown.
Qed.

Lemma forget_cache slice hostNames : ∀ st,
  (foldl (forgetStep slice) st hostNames).1
  = foldl (fun e hostName => Delete hostName (v1.slice_Name slice) e) st.1 hostNames.
Proof.
  induction hostNames as [|h hs IH]; intros st; [done|]. simpl.
  by rewrite IH, forgetStep_cache.
Qed.

Lemma slicesOf_forgotten s hostName hostNames : ∀ e,
  slicesOf hostName (foldl (fun e hostName => Delete hostName s e) e hostNames)
  = if decide (hostName ∈ hostNames) then delete s (slicesOf hostName e)
    else slicesOf hostName e.
Proof.
  induction hostNames as [|h hs IH]; intros e.
  - destruct (decide (hostName ∈ [])) as [Hin|_]; [by apply elem_of_nil in Hin | done].
  - cbn [foldl]. rewrite IH. destruct (decide (hostName = h)) as [->|Hne].
    + rewrite slicesOf_Delete, delete_delete_eq.
      destruct (decide (h ∈ h :: hs)) as [_|Hnot]; [|exfalso; apply Hnot; by left].
      by destruct (decide (h ∈ hs)).
    + assert (slicesOf hostName (Delete h s e) = slicesOf hostName e) as ->.
      { unfold slicesOf. by rewrite lookup_Delete_ne. }
      destruct (decide (hostName ∈ hs)) as [Hin|Hin],
               (decide (hostName ∈ h :: hs)) as [Hin'|Hin']; try done.
      * exfalso. apply Hin'. by right.
      * exfalso. apply elem_of_cons in Hin' as [?|?]; done.
Qed.



(** X17: what [forgetEndpoint] leaves in the cache.  For every host of the
    slice's service the slice is removed and the other slices stay; the
    other services are untouched. *)
Theorem forgetEndpoint_cache esc idx slice hostName :
  c (forgot_esc (forgetEndpoint esc idx slice)) = c esc ∧
  slicesOf hostName (endpointCache (forgot_esc (forgetEndpoint esc idx slice)))
  = if decide (hostName ∈ hostNamesForNamespacedName idx (getServiceNamespacedName idx slice))
    then delete (v1.slice_Name slice) (slicesOf hostName (endpointCache esc))
    else slicesOf hostName (endpointCache esc).
Proof.
  unfold forgetEndpoint. simpl. split; [done|].
  by rewrite forget_cache, slicesOf_forgotten.
Qed.

Lemma forgetEndpoint_cache_witness :
  slicesOf exampleHost
    (endpointCache (forgot_esc (forgetEndpoint (controllerWith [] overlapCache)
                                  exampleIndex exampleSlice)))
  = {[ "slice-b" := [endpointAt "10.0.0.5" model.Draining] ]}.
Proof.
  rewrite (proj2 (forgetEndpoint_cache (controllerWith [] overlapCache) exampleIndex
                    exampleSlice exampleHost)).
  by vm_compute.
Defined.



(** ** The by-proxy query *)

(** A loop whose body appends to both components of its state. *)
Lemma foldl_append2 {A B C} (body : list B * list C → A → list B * list C)
    (F : A → list B) (G : A → list C) (l : list A) :
  (∀ st x, body st x = (st.1 ++ F x, st.2 ++ G x)) →
  ∀ st, foldl body st l = (st.1 ++ (l ≫= F), st.2 ++ (l ≫= G)).
Proof.
  intros Hbody. induction l as [|x l IH]; intros [out ms].
  - simpl. by rewrite !app_nil_r.
  - rewrite !bind_cons. cbn [foldl]. rewrite IH, Hbody. simpl.
    by rewrite <- !app_assoc.
Qed.

Lemma omap_bind {A B C} (f : B → option C) (g : A → list B) (l : list A) :
  omap f (l ≫= g) = l ≫= (fun x => omap f (g x)).
Proof.
  induction l as [|x l IH]; [done|]. by rewrite !bind_cons, omap_app, IH.
Qed.

Lemma omap_singleton {A B} (f : A → option B) (x : A) :
  omap f [x] = match f x with Some y => [y] | None => [] end.
Proof. simpl. by destruct (f x). Qed.

(** What one combination adds to the instances and to the metric calls. *)
Lemma proxy_combination ctl idx proxy svc port ip e a :
  omap (proxyInstanceOf ctl idx proxy) [(svc, port, ip, e, a)]
  = match v1.port_Name port, v1.port_Port port with
    | Some name, Some portNum =>
        match PortList_Get (model.svc_Ports svc) name with
        | Some svcPort =>
            if decide (a = ip) then
              [ {| model.inst_Endpoint :=
                     buildIstioEndpoint ctl (getPodByProxy idx proxy) ip portNum
                       (model.port_Name svcPort)
                       (EndpointDiscoverabilityPolicy ctl (Some svc));
                   model.inst_ServicePort := svcPort;
                   model.inst_Service := svc |} ]
            else []
        | None => []
        end
    | _, _ => []
    end ∧
  omap (proxyMetricOf ctl idx proxy) [(svc, port, ip, e, a)]
  = match v1.port_Name port, v1.port_Port port with
    | Some name, Some portNum =>
        match PortList_Get (model.svc_Ports svc) name with
        | Some svcPort =>
            if decide (a = ip) then
              if reportsNotReady idx e
              then [ {| metric_key := proxy_ID proxy;
                        metric_proxyID := proxy_ID proxy;
                        metric_msg := "" |} ]
              else []
            else []
        | None => []
        end
    | _, _ => []
    end.
Proof.
  rewrite !omap_singleton. unfold proxyMetricOf, proxyInstanceOf. simpl.
  destruct (v1.port_Name port) as [name|]; simpl; [|done].
  destruct (v1.port_Port port) as [portNum|]; simpl; [|done].
  destruct (PortList_Get (model.svc_Ports svc) name) as [svcPort|]; simpl; [|done].
  destruct (decide (a = ip)); [|done].
  by destruct (reportsNotReady idx e).
Qed.

(** The instances and metric calls of one service and one partition port. *)
Lemma proxyAddressLoop_spec ctl idx slice proxy svc port name portNum svcPort st :
  v1.port_Name port = Some name → v1.port_Port port = Some portNum →
  PortList_Get (model.svc_Ports svc) name = Some svcPort →
  proxyAddressLoop ctl idx slice proxy svc (getPodByProxy idx proxy)
    (EndpointDiscoverabilityPolicy ctl (Some svc)) portNum svcPort st
  = (st.1 ++ (ip ← IPAddresses proxy; e ← v1.Endpoints slice; a ← v1.Addresses e;
              omap (proxyInstanceOf ctl idx proxy) [(svc, port, ip, e, a)]),
     st.2 ++ (ip ← IPAddresses proxy; e ← v1.Endpoints slice; a ← v1.Addresses e;
              omap (proxyMetricOf ctl idx proxy) [(svc, port, ip, e, a)])).
Proof.
  intros Hname Hnum Hget. unfold proxyAddressLoop.
  apply foldl_append2. intros st1 ip.
  apply foldl_append2. intros st2 e.
  apply foldl_append2. intros [out ms] a.
  destruct (proxy_combination ctl idx proxy svc port ip e a) as [-> ->].
  rewrite Hname, Hnum, Hget. simpl.
  destruct (decide (a = ip)); [|by rewrite !app_nil_r].
  destruct (reportsNotReady idx e); [done | by rewrite app_nil_r].
Qed.

Lemma proxy_port_skipped ctl idx slice proxy svc port :
  (∀ name portNum, v1.port_Name port = Some name → v1.port_Port port = Some portNum →
     PortList_Get (model.svc_Ports svc) name = None) →
  (ip ← IPAddresses proxy; e ← v1.Endpoints slice; a ← v1.Addresses e;
   omap (proxyInstanceOf ctl idx proxy) [(svc, port, ip, e, a)]) = [] ∧
  (ip ← IPAddresses proxy; e ← v1.Endpoints slice; a ← v1.Addresses e;
   omap (proxyMetricOf ctl idx proxy) [(svc, port, ip, e, a)]) = [].
Proof.
  intros Hskip.
  split; apply bind_all_nil; intros ip; apply bind_all_nil; intros e;
    apply bind_all_nil; intros a;
    destruct (proxy_combination ctl idx proxy svc port ip e a) as [H1 H2];
    rewrite ?H1, ?H2;
    destruct (v1.port_Name port) as [name|]; try done;
    destruct (v1.port_Port port) as [portNum|]; try done;
    by rewrite (Hskip name portNum).
Qed.

Lemma proxyPortLoop_spec ctl idx slice proxy st svc :
  proxyPortLoop ctl idx slice proxy st svc
  = (st.1 ++ (port ← v1.Ports slice; ip ← IPAddresses proxy; e ← v1.Endpoints slice;
              a ← v1.Addresses e;
              omap (proxyInstanceOf ctl idx proxy) [(svc, port, ip, e, a)]),
     st.2 ++ (port ← v1.Ports slice; ip ← IPAddresses proxy; e ← v1.Endpoints slice;
              a ← v1.Addresses e;
              omap (proxyMetricOf ctl idx proxy) [(svc, port, ip, e, a)])).
Proof.
  unfold proxyPortLoop. apply foldl_append2. intros [out ms] port.
  destruct (v1.port_Name port) as [name|] eqn:Hname;
    [destruct (v1.port_Port port) as [portNum|] eqn:Hnum;
       [destruct (PortList_Get (model.svc_Ports svc) name) as [svcPort|] eqn:Hget|]|].
  - by erewrite proxyAddressLoop_spec.
  - destruct (proxy_port_skipped ctl idx slice proxy svc port) as [-> ->].
    + intros name' portNum' Hn _. rewrite Hname in Hn. by injection Hn as <-.
    + cbn [fst snd]. by rewrite !app_nil_r.
  - destruct (proxy_port_skipped ctl idx slice proxy svc port) as [-> ->].
    + intros name' portNum' _ Hp. by rewrite Hnum in Hp.
    + cbn [fst snd]. by rewrite !app_nil_r.
  - destruct (proxy_port_skipped ctl idx slice proxy svc port) as [-> ->].
    + intros name' portNum' Hn _. by rewrite Hname in Hn.
    + cbn [fst snd]. by rewrite !app_nil_r.
Qed.

Lemma omap_proxyCombinations {B} (f : _ → option B) idx slice proxy :
  omap f (proxyCombinations idx slice proxy)
  = (svc ← servicesForNamespacedName idx (getServiceNamespacedName idx slice);
     port ← v1.Ports slice; ip ← IPAddresses proxy; e ← v1.Endpoints slice;
     a ← v1.Addresses e; omap f [(svc, port, ip, e, a)]).
Proof.
  unfold proxyCombinations. rewrite omap_bind. apply bind_ext_eq. intros svc.
  rewrite omap_bind. apply bind_ext_eq. intros port.
  rewrite omap_bind. apply bind_ext_eq. intros ip.
  rewrite omap_bind. apply bind_ext_eq. intros e.
  by rewrite omap_bind.
Qed.

Lemma sliceServiceInstances_spec ctl idx slice proxy metrics :
  sliceServiceInstances ctl idx slice proxy metrics
  = if decide (v1.slice_AddressType slice = v1.AddressTypeFQDN) then ([], metrics)
    else (omap (proxyInstanceOf ctl idx proxy) (proxyCombinations idx slice proxy),
          metrics ++ omap (proxyMetricOf ctl idx proxy) (proxyCombinations idx slice proxy)).
Proof.
  unfold sliceServiceInstances. case_decide; [done|].
  rewrite !omap_proxyCombinations.
  by rewrite (foldl_append2 _ _ _ _ (proxyPortLoop_spec ctl idx slice proxy)).
Qed.

(** X19: the by-proxy query of one partition.  For a partition that is not
    of FQDN type, [sliceServiceInstances] returns, in the order of its loops
    and with repetitions, the instance of every (service, partition port,
    proxy address, entry, entry address) combination in which the port has a
    name and a number, the service declares a port of that name and the
    entry address is the proxy address; an FQDN partition yields nothing. *)
Theorem by_proxy_instances ctl idx slice proxy metrics :
  (v1.slice_AddressType slice = v1.AddressTypeFQDN →
   sliceServiceInstances ctl idx slice proxy metrics = ([], metrics)) ∧
  (v1.slice_AddressType slice ≠ v1.AddressTypeFQDN →
   (sliceServiceInstances ctl idx slice proxy metrics).1
   = omap (proxyInstanceOf ctl idx proxy) (proxyCombinations idx slice proxy)).
Proof.
  rewrite sliceServiceInstances_spec. split; intros Htype.
  - by rewrite decide_True.
  - by rewrite decide_False.
Qed.

(** Only the named and declared port of [mixedPortsSlice] gives an instance,
    for the one address of the proxy that an entry lists; that entry is not
    ready. *)
Lemma by_proxy_instances_witness :
  v1.slice_AddressType mixedPortsSlice ≠ v1.AddressTypeFQDN ∧
  length (proxyCombinations exampleIndex mixedPortsSlice exampleProxy) = 32%nat ∧
  (model.Address ∘ model.inst_Endpoint)
    <$> (sliceServiceInstances exampleController exampleIndex mixedPortsSlice exampleProxy []).1
  = ["10.0.0.6"].
Proof.
  assert (v1.slice_AddressType mixedPortsSlice ≠ v1.AddressTypeFQDN) as Hip by done.
  split_and!; [done | by vm_compute |].
  rewrite (proj2 (by_proxy_instances exampleController exampleIndex mixedPortsSlice
                    exampleProxy []) Hip).
  by vm_compute.
Defined.

(** X20: what the by-proxy query never returns.  Every instance is for a
    service of the slice's namespaced name, a partition port that has a name
    and a number, the port the service declares under that name, and an
    address of the proxy that an entry of the partition lists. *)
Theorem by_proxy_sound ctl idx slice proxy metrics inst :
  inst ∈ (sliceServiceInstances ctl idx slice proxy metrics).1 →
  v1.slice_AddressType slice ≠ v1.AddressTypeFQDN ∧
  ∃ port name portNum ip e,
    model.inst_Service inst
    ∈ servicesForNamespacedName idx (getServiceNamespacedName idx slice) ∧
    port ∈ v1.Ports slice ∧
    v1.port_Name port = Some name ∧ v1.port_Port port = Some portNum ∧
    PortList_Get (model.svc_Ports (model.inst_Service inst)) name
    = Some (model.inst_ServicePort inst) ∧
    ip ∈ IPAddresses proxy ∧ e ∈ v1.Endpoints slice ∧ ip ∈ v1.Addresses e ∧
    model.inst_Endpoint inst
    = buildIstioEndpoint ctl (getPodByProxy idx proxy) ip portNum
        (model.port_Name (model.inst_ServicePort inst))
        (EndpointDiscoverabilityPolicy ctl (Some (model.inst_Service inst))).
Proof.
  rewrite sliceServiceInstances_spec. case_decide as Htype; simpl.
  { by intros ?%elem_of_nil. }
  intros ([[[[svc port] ip] e] a] & Hin & Hinst)%list_elem_of_omap. split; [done|].
  unfold proxyCombinations in Hin.
  apply list_elem_of_bind in Hin as (svc' & Hin & Hsvc).
  apply list_elem_of_bind in Hin as (port' & Hin & Hport).
  apply list_elem_of_bind in Hin as (ip' & Hin & Hip).
  apply list_elem_of_bind in Hin as (e' & Hin & He).
  apply list_elem_of_bind in Hin as (a' & Hin & Ha).
  apply list_elem_of_singleton in Hin. injection Hin as -> -> -> -> ->.
  unfold proxyInstanceOf in Hinst.
  destruct (v1.port_Name port') as [name|] eqn:Hname; [|done].
  destruct (v1.port_Port port') as [portNum|] eqn:Hnum; [|done].
  simpl in Hinst.
  destruct (PortList_Get (model.svc_Ports svc') name) as [svcPort|] eqn:Hget; [|done].
  simpl in Hinst. destruct (decide (a' = ip')) as [->|]; [|done].
  injection Hinst as <-. simpl.
  by exists port', name, portNum, ip', e'.
Qed.

Lemma by_proxy_sound_witness :
  (∃ inst,
     inst ∈ (sliceServiceInstances exampleController exampleIndex mixedPortsSlice
               exampleProxy []).1) ∧
  ∀ inst,
    inst ∈ (sliceServiceInstances exampleController exampleIndex mixedPortsSlice
              exampleProxy []).1 →
    ∃ port name portNum,
      port ∈ v1.Ports mixedPortsSlice ∧
      v1.port_Name port = Some name ∧ v1.port_Port port = Some portNum ∧
      PortList_Get (model.svc_Ports (model.inst_Service inst)) name
      = Some (model.inst_ServicePort inst).
Proof.
  split.
  - eexists. vm_compute. left.
  - intros inst Hin.
    destruct (by_proxy_sound exampleController exampleIndex mixedPortsSlice exampleProxy
                [] inst Hin) as (_ & port & name & portNum & _ & _ & _ & Hp & Hn & Hnum & Hget & _).
    by exists port, name, portNum.
Defined.

Lemma length_omap_le {A B C} (f : A → option B) (g : A → option C) (l : list A) :
  (∀ x, is_Some (g x) → is_Some (f x)) → (length (omap g l) ≤ length (omap f l))%nat.
Proof.
  intros Hgf. induction l as [|x l IH]; [done|].
  cbn [omap list_omap]. specialize (Hgf x).
  destruct (g x) as [z|], (f x) as [y|]; simpl; try lia.
  destruct Hgf as [? [=]]. eauto.
Qed.

(** X21: the metric calls of the by-proxy query.  The calls made before are
    kept; the query adds at most one call for each instance it returns, each
    for the proxy, and none when no metrics sink is set or when no entry is
    explicitly not ready. *)
Theorem by_proxy_metrics ctl idx slice proxy metrics :
  ∃ added,
    (sliceServiceInstances ctl idx slice proxy metrics).2 = metrics ++ added ∧
    (length added ≤ length (sliceServiceInstances ctl idx slice proxy metrics).1)%nat ∧
    (∀ ev, ev ∈ added →
       ev = {| metric_key := proxy_ID proxy; metric_proxyID := proxy_ID proxy;
               metric_msg := "" |}) ∧
    (Metrics idx = false → added = []) ∧
    ((∀ e, e ∈ v1.Endpoints slice → v1.Ready (v1.Conditions e) ≠ Some false) →
     added = []).
Proof.
  rewrite sliceServiceInstances_spec. case_decide as Htype; simpl.
  { exists []. rewrite app_nil_r. split_and!; try done. by intros ev ?%elem_of_nil. }
  exists (omap (proxyMetricOf ctl idx proxy) (proxyCombinations idx slice proxy)).
  assert (∀ x ev, x ∈ proxyCombinations idx slice proxy →
            proxyMetricOf ctl idx proxy x = Some ev →
            reportsNotReady idx x.1.2 = true ∧ x.1.2 ∈ v1.Endpoints slice ∧
            ev = {| metric_key := proxy_ID proxy; metric_proxyID := proxy_ID proxy;
                    metric_msg := "" |}) as Hev.
  { intros [[[[svc port] ip] e] a] ev Hin Hm. unfold proxyMetricOf in Hm.
    cbn [fst snd] in *.
    destruct (proxyInstanceOf ctl idx proxy (svc, port, ip, e, a)); [|done].
    destruct (reportsNotReady idx e); [|done]. injection Hm as <-.
    split_and!; [done | | done].
    unfold proxyCombinations in Hin.
    apply list_elem_of_bind in Hin as (svc' & Hin & _).
    apply list_elem_of_bind in Hin as (port' & Hin & _).
    apply list_elem_of_bind in Hin as (ip' & Hin & _).
    apply list_elem_of_bind in Hin as (e' & Hin & He).
    apply list_elem_of_bind in Hin as (a' & Hin & _).
    apply list_elem_of_singleton in Hin. by injection Hin as -> -> -> -> ->. }
  split_and!.
  - done.
  - apply length_omap_le. intros x. unfold proxyMetricOf.
    destruct (proxyInstanceOf ctl idx proxy x); [eauto | by intros [??]].
  - intros ev (x & Hin & Hm)%list_elem_of_omap. by apply (Hev x ev).
  - intros Hnone.
    destruct (omap _ _) as [|ev added] eqn:Hadded; [done|].
    assert (ev ∈ omap (proxyMetricOf ctl idx proxy) (proxyCombinations idx slice proxy))
      as (x & Hin & Hm)%list_elem_of_omap by (rewrite Hadded; by left).
    destruct (Hev x ev Hin Hm) as (Hrep & _). unfold reportsNotReady in Hrep.
    rewrite Hnone in Hrep. destruct (v1.Ready _) as [[]|]; done.
  - intros Hready.
    destruct (omap _ _) as [|ev added] eqn:Hadded; [done|].
    assert (ev ∈ omap (proxyMetricOf ctl idx proxy) (proxyCombinations idx slice proxy))
      as (x & Hin & Hm)%list_elem_of_omap by (rewrite Hadded; by left).
    destruct (Hev x ev Hin Hm) as (Hrep & He & _). unfold reportsNotReady in Hrep.
    specialize (Hready _ He). destruct (v1.Ready _) as [[]|]; done.
Qed.

Lemma by_proxy_instances_any_metrics ctl idx slice proxy metrics :
  (sliceServiceInstances ctl idx slice proxy metrics).1
  = (sliceServiceInstances ctl idx slice proxy []).1.
Proof. rewrite !sliceServiceInstances_spec. by case_decide. Qed.

(** X22: the by-proxy query over a namespace.  [GetProxyServiceInstances]
    returns nothing when the listing fails; otherwise it returns the
    instances of the listed partitions one after the other, in the order of
    the listing and without removing repetitions. *)
Theorem GetProxyServiceInstances_concat esc ctl idx proxy :
  (∀ msg, listSlices esc (proxy_Namespace proxy) endpointSliceSelector = Err msg →
     GetProxyServiceInstances esc ctl idx proxy = ([], [])) ∧
  (∀ eps, listSlices esc (proxy_Namespace proxy) endpointSliceSelector = Ok eps →
     (GetProxyServiceInstances esc ctl idx proxy).1
     = eps ≫= (fun slice => (sliceServiceInstances ctl idx slice proxy []).1)).
Proof.
  unfold GetProxyServiceInstances. split.
  - by intros msg ->.
  - intros eps ->.
    assert (∀ st : proxyState,
      (foldl (fun (st : proxyState) slice =>
                let r := sliceServiceInstances ctl idx slice proxy st.2 in
                (st.1 ++ r.1, r.2)) st eps).1
      = st.1 ++ (eps ≫= (fun slice => (sliceServiceInstances ctl idx slice proxy []).1)))
      as Hloop.
    { induction eps as [|slice eps IH]; intros st.
      - simpl. by rewrite app_nil_r.
      - rewrite bind_cons. cbn [foldl]. rewrite IH. simpl.
        by rewrite by_proxy_instances_any_metrics, <- app_assoc. }
    by rewrite Hloop.
Qed.

(** The proxy is found in both listed partitions: two instances. *)
Lemma GetProxyServiceInstances_concat_witness :
  listSlices (controllerWith [mixedPortsSlice; exampleSlice] newEndpointSliceCache)
    (proxy_Namespace exampleProxy) endpointSliceSelector
  = Ok [mixedPortsSlice; exampleSlice] ∧
  (model.Address ∘ model.inst_Endpoint)
    <$> (GetProxyServiceInstances
           (controllerWith [mixedPortsSlice; exampleSlice] newEndpointSliceCache)
           exampleController exampleIndex exampleProxy).1
  = ["10.0.0.6"; "10.0.0.6"].
Proof.
  assert (listSlices (controllerWith [mixedPortsSlice; exampleSlice] newEndpointSliceCache)
            (proxy_Namespace exampleProxy) endpointSliceSelector
          = Ok [mixedPortsSlice; exampleSlice]) as Hlist by done.
  split; [done|].
  rewrite (proj2 (GetProxyServiceInstances_concat _ exampleController exampleIndex
                    exampleProxy) _ Hlist).
  by vm_compute.
Defined.

(** X23: the by-proxy query does not look at readiness.  Changing the
    conditions of the entries of a partition changes no instance: an entry
    that is not ready is returned like a ready one. *)
Theorem by_proxy_ignores_conditions ctl idx slice proxy metrics f :
  GetLabels idx (withConditions f slice) = GetLabels idx slice →
  (sliceServiceInstances ctl idx (withConditions f slice) proxy metrics).1
  = (sliceServiceInstances ctl idx slice proxy metrics).1.
Proof.
  intros Hlabels. rewrite !sliceServiceInstances_spec.
  change (v1.slice_AddressType (withConditions f slice)) with (v1.slice_AddressType slice).
  case_decide; [done|]. cbn [fst].
  rewrite !omap_proxyCombinations.
  unfold getServiceNamespacedName. rewrite Hlabels.
  cbn [withConditions v1.slice_Namespace v1.Ports v1.Endpoints].
  apply bind_ext_eq. intros svc. apply bind_ext_eq. intros port.
  apply bind_ext_eq. intros ip. rewrite list_fmap_bind.
  apply bind_ext_eq. intros e. unfold compose. cbn [v1.Addresses].
  apply bind_ext_eq. intros a.
  by rewrite !(proj1 (proxy_combination _ _ _ _ _ _ _ _)).
Qed.

Lemma by_proxy_ignores_conditions_witness :
  GetLabels exampleIndex
    (withConditions (fun _ => {| v1.Ready := Some true; v1.Serving := Some true;
                                 v1.Terminating := None |}) exampleSlice)
  = GetLabels exampleIndex exampleSlice ∧
  (model.Address ∘ model.inst_Endpoint)
    <$> (sliceServiceInstances exampleController exampleIndex exampleSlice exampleProxy []).1
  = ["10.0.0.6"] ∧
  (sliceServiceInstances exampleController exampleIndex
     (withConditions (fun _ => {| v1.Ready := Some true; v1.Serving := Some true;
                                  v1.Terminating := None |}) exampleSlice)
     exampleProxy []).1
  = (sliceServiceInstances exampleController exampleIndex exampleSlice exampleProxy []).1.
Proof.
  split_and!; [done | by vm_compute |].
  by apply (by_proxy_ignores_conditions exampleController exampleIndex exampleSlice
              exampleProxy []).
Defined.

(** ** The by-port query and readiness *)

Lemma byPort_loop esc ctl svc svcPort slices : ∀ out,
  foldl (instancesOfSlice esc ctl svc svcPort (EndpointDiscoverabilityPolicy ctl (Some svc)))
    out slices
  = out ++ (slice ← slices; e ← v1.Endpoints slice; a ← v1.Addresses e;
            port ← v1.Ports slice;
            instanceOf esc ctl svc svcPort
              <$> filter (fun x => Is_true (qualifiesIP ctl svc svcPort x))
                    [(slice, e, a, port)]).
Proof.
  apply foldl_append. intros out slice. rewrite instancesOfSlice_spec. f_equal.
  unfold combinations. rewrite bind_singleton, fmap_filter_bind.
  apply bind_ext_eq. intros e. rewrite fmap_filter_bind.
  apply bind_ext_eq. intros a. by rewrite fmap_filter_bind.
Qed.

(** X24: the by-port query does not look at readiness either.  Two listings
    that differ only in the conditions of their entries give the same
    instances: unlike the processor, the query returns entries that are not
    ready. *)
Theorem InstancesByPort_ignores_conditions esc esc' ctl svc reqSvcPort slices f :
  c esc' = c esc →
  listSlices esc (model.attr_Namespace (model.Attributes svc))
    (endpointSliceSelectorForService (model.attr_Name (model.Attributes svc))) = Ok slices →
  listSlices esc' (model.attr_Namespace (model.Attributes svc))
    (endpointSliceSelectorForService (model.attr_Name (model.Attributes svc)))
  = Ok (withConditions f <$> slices) →
  InstancesByPort esc' ctl svc reqSvcPort = InstancesByPort esc ctl svc reqSvcPort.
Proof.
  intros Hc Hlist Hlist'. unfold InstancesByPort. rewrite Hlist, Hlist', length_fmap.
  case_decide; [done|].
  destruct (model.GetByPort (model.svc_Ports svc) reqSvcPort) as [svcPort|]; [|done].
  simpl. rewrite !byPort_loop. f_equal. rewrite list_fmap_bind.
  apply bind_ext_eq. intros slice. unfold compose. cbn [v1.Endpoints withConditions].
  rewrite list_fmap_bind.
  apply bind_ext_eq. intros e. unfold compose. cbn [v1.Addresses v1.Ports].
  apply bind_ext_eq. intros a. apply bind_ext_eq. intros port.
  rewrite !instance_of_combination. simpl. by rewrite Hc.
Qed.

Lemma InstancesByPort_ignores_conditions_witness :
  (model.Address ∘ model.inst_Endpoint)
    <$> InstancesByPort (controllerWith [exampleSlice] newEndpointSliceCache)
          exampleController exampleService 80
  = ["10.0.0.5"; "10.0.0.6"; "10.0.0.7"; "10.0.0.8"] ∧
  InstancesByPort
    (controllerWith
       [withConditions (fun _ => {| v1.Ready := Some false; v1.Serving := Some false;
                                    v1.Terminating := Some true |}) exampleSlice]
       newEndpointSliceCache)
    exampleController exampleService 80
  = InstancesByPort (controllerWith [exampleSlice] newEndpointSliceCache)
      exampleController exampleService 80.
Proof.
  split; [by vm_compute|].
  by apply (InstancesByPort_ignores_conditions
              (controllerWith [exampleSlice] newEndpointSliceCache)
              (controllerWith
                 [withConditions (fun _ => {| v1.Ready := Some false; v1.Serving := Some false;
                                              v1.Terminating := Some true |}) exampleSlice]
                 newEndpointSliceCache)
              exampleController exampleService 80 [exampleSlice]
              (fun _ => {| v1.Ready := Some false; v1.Serving := Some false;
                           v1.Terminating := Some true |})).
Defined.

(** ** The cache under the operations of the controller *)

Lemma processed_reachable flags esc hostName slice :
  reachable (endpointCache esc) →
  reachable (endpointCache (updateEndpointCacheForSlice flags esc hostName slice)).
Proof.
  intros Hreach. unfold updateEndpointCacheForSlice. case_decide; [done|].
  simpl. by apply reach_update.
Qed.

Lemma rebuilt_reachable flags hostName slices : ∀ esc,
  reachable (endpointCache esc) →
  reachable
    (endpointCache
       (foldl (fun esc slice => updateEndpointCacheForSlice flags esc hostName slice)
          esc slices)).
Proof.
  induction slices as [|sl slices IH]; intros esc Hreach; [done|]. simpl.
  by apply IH, processed_reachable.
Qed.

Lemma forgotten_reachable s hostNames : ∀ e,
  reachable e → reachable (foldl (fun e hostName => Delete hostName s e) e hostNames).
Proof.
  induction hostNames as [|h hs IH]; intros e Hreach; [done|]. simpl.
  by apply IH, reach_delete.
Qed.

(** X25: every operation of the controller keeps the cache among the states
    that [Update] and [Delete] build from the empty cache, in which no
    service is recorded without a slice: after processing a payload,
    rebuilding from a listing or forgetting a partition, [Has] still holds
    exactly of the services with a recorded slice. *)
Theorem operations_keep_reachable flags esc idx hostName slice name namespace updateCache :
  reachable (endpointCache esc) →
  reachable (endpointCache (updateEndpointCacheForSlice flags esc hostName slice)) ∧
  reachable (endpointCache (buildIstioEndpoints flags esc hostName slice).1) ∧
  reachable
    (endpointCache
       (buildIstioEndpointsWithService flags esc name namespace hostName updateCache).1) ∧
  reachable (endpointCache (forgot_esc (forgetEndpoint esc idx slice))) ∧
  ∀ hostName',
    Has hostName' (endpointCache (forgot_esc (forgetEndpoint esc idx slice))) = true ↔
    ∃ slice' eps,
      slicesOf hostName' (endpointCache (forgot_esc (forgetEndpoint esc idx slice))) !! slice'
      = Some eps.
Proof.
  intros Hreach.
  assert (reachable (endpointCache (forgot_esc (forgetEndpoint esc idx slice)))) as Hforgot.
  { unfold forgetEndpoint. simpl. rewrite forget_cache. by apply forgotten_reachable. }
  split_and!.
  - by apply processed_reachable.
  - unfold buildIstioEndpoints. simpl. by apply processed_reachable.
  - unfold buildIstioEndpointsWithService.
    destruct (listSlices esc namespace (endpointSliceSelectorForService name)); [|done].
    case_decide; [done|]. destruct updateCache; simpl; [|done].
    by apply rebuilt_reachable.
  - done.
  - intros hostName'. rewrite Has_true. unfold slicesOf. split.
    + intros [slices Hl]. rewrite Hl. simpl. apply map_choose.
      by eapply reachable_nonempty.
    + intros (slice' & eps & Hl).
      destruct (endpointsByServiceAndSlice _ !! hostName'); [eauto|].
      simpl in Hl. by rewrite lookup_empty in Hl.
Qed.

(** Forgetting the last partition of the service removes the service. *)
Lemma operations_keep_reachable_witness :
  reachable (endpointCache (controllerWith [] priorCache)) ∧
  Has exampleHost (endpointCache (controllerWith [] priorCache)) = true ∧
  Has exampleHost
    (endpointCache (forgot_esc (forgetEndpoint (controllerWith [] priorCache)
                                  exampleIndex exampleSlice))) = false ∧
  reachable
    (endpointCache (forgot_esc (forgetEndpoint (controllerWith [] priorCache)
                                  exampleIndex exampleSlice))).
Proof.
  assert (reachable (endpointCache (controllerWith [] priorCache))) as Hreach
    by apply reach_update, reach_new.
  split_and!; [done | by vm_compute | by vm_compute |].
  exact (proj1 (proj2 (proj2 (proj2
           (operations_keep_reachable exampleFlags _ exampleIndex exampleHost exampleSlice
              "svc" "default" true Hreach))))).
Defined.
